(** * k8s-ecommerce: cart, product and order services

    A shallow embedding of the three HTTP services of the repository and
    the properties their specification states about them.

    - [CartService]    : cart-service/main.go    (key-value store, Redis)
    - [ProductService] : product-service/main.go (fixed in-memory catalog)
    - [OrderService]   : order-service/main.go   (relational store, one
                         transaction per order creation)

    Each handler is a function from the decoded request and the state of
    the backing store to an HTTP response and the next state of the store.
    A store call can fail for reasons outside the program (connection loss,
    constraint violation, ...): the store carries a schedule of faults, one
    boolean per call still to come, and every fallible call consumes one. *)

From stdpp Require Import gmap strings list sorting.
From Stdlib Require Import ZArith Lia SpecFloat Ascii.

Open Scope Z_scope.

(** ** Go base types *)

(** Go's [int] on the 64-bit targets the images are built for: arithmetic
    wraps around in two's complement. *)
Definition intSize : Z := 64.
Definition minInt : Z := - 2 ^ (intSize - 1).
Definition maxInt : Z := 2 ^ (intSize - 1) - 1.

Definition wrap (x : Z) : Z :=
  (x + 2 ^ (intSize - 1)) mod 2 ^ intSize - 2 ^ (intSize - 1).

Definition int_add (a b : Z) : Z := wrap (a + b).

Definition in_int (x : Z) : Prop := minInt <= x <= maxInt.

(** Go's [float64]: an IEEE-754 binary64 value. *)
Definition float64 : Type := spec_float.

(** ** HTTP statuses (package net/http) *)
Definition StatusOK : Z := 200.
Definition StatusCreated : Z := 201.
Definition StatusBadRequest : Z := 400.
Definition StatusNotFound : Z := 404.
Definition StatusInternalServerError : Z := 500.

(** ** HTTP responses

    What a handler writes: the status ([WriteHeader], 200 where the
    handler does not call it) and the value it encodes as the JSON body. *)
Inductive Body (A : Type) :=
  | ErrorBody (msg : string)      (* {"error": msg} *)
  | MessageBody (msg : string)    (* {"message": msg} *)
  | JSONBody (a : A).
Arguments ErrorBody {A} msg.
Arguments MessageBody {A} msg.
Arguments JSONBody {A} a.

Record Response (A : Type) := mkResponse { status : Z; body : Body A }.
Arguments mkResponse {A} status body.
Arguments status {A} r.
Arguments body {A} r.

Definition error {A} (code : Z) (msg : string) : Response A :=
  mkResponse code (ErrorBody msg).

(** ** A state monad for handlers that thread the store *)
Definition State (S A : Type) : Type := S -> A * S.

Definition ret {S A} (a : A) : State S A := fun s => (a, s).

Definition bind {S A B} (m : State S A) (k : A -> State S B) : State S B :=
  fun s => let '(a, s') := m s in k a s'.

Declare Scope state_scope.
Delimit Scope state_scope with state.
Notation "'let*' x ':=' m 'in' k" := (bind m (fun x => k))
  (at level 10, x name, m at level 100, k at level 200) : state_scope.

(** The next entry of a fault schedule; an exhausted schedule has no
    fault left. *)
Definition pop_fault (fs : list bool) : bool * list bool :=
  match fs with
  | [] => (false, [])
  | f :: fs' => (f, fs')
  end.

(** The first [n] calls of a schedule do not fail. *)
Definition healthy (n : nat) (fs : list bool) : bool :=
  forallb negb (take n fs).

(** The body of a health check: [{"status": ..., "service": ...}]. *)
Record Health := mkHealth { health_status : string; health_service : string }.

(** * Cart service *)
Module CartService.

Record CartItem := mkCartItem {
  ProductID : Z;   (* int, json "product_id" *)
  Quantity : Z     (* int, json "quantity" *)
}.

Record Cart := mkCart {
  UserID : string;         (* json "user_id" *)
  Items : list CartItem    (* json "items" *)
}.

#[export] Instance CartItem_eq_dec : EqDecision CartItem.
Proof. solve_decision. Defined.

(** encoding/json on the [Cart] struct.  [Blob] is the serialized value
    kept in the store; [Marshal] and [Unmarshal] return [None] where the
    Go functions return an error.  A cart, made of a string and of
    integers, is always encoded, and decoding what was encoded gives it
    back. *)
Class JSON (Blob : Type) := {
  Marshal : Cart -> option Blob;
  Unmarshal : Blob -> option Cart;
  Marshal_total : forall c, is_Some (Marshal c);
  Unmarshal_Marshal : forall c b, Marshal c = Some b -> Unmarshal b = Some c
}.

(** At most one entry per product id. *)
Definition unique_products (items : list CartItem) : Prop :=
  NoDup (map ProductID items).

Section Handlers.
Context {Blob : Type} `{JSON Blob}.

(** The Redis client [rdb]: the stored values and the faults to come. *)
Record Redis := mkRedis {
  kv : gmap string Blob;
  faults : list bool
}.

(** Result of [rdb.Get(ctx, key).Result()]. *)
Inductive GetResult :=
  | GetVal (data : Blob)
  | GetNil            (* err == redis.Nil: no value stored *)
  | GetErr.           (* any other error *)

Definition rdb_Get (key : string) : State Redis GetResult := fun r =>
  let '(f, fs) := pop_fault (faults r) in
  let r' := mkRedis (kv r) fs in
  if f then (GetErr, r')
  else match kv r !! key with
       | Some data => (GetVal data, r')
       | None => (GetNil, r')
       end.

(** [rdb.Set(ctx, key, value, 0).Err()]: [true] is a nil error.  The
    expiration 0 keeps the value without a time-to-live. *)
Definition rdb_Set (key : string) (value : Blob) : State Redis bool := fun r =>
  let '(f, fs) := pop_fault (faults r) in
  if f then (false, mkRedis (kv r) fs)
  else (true, mkRedis (<[key := value]> (kv r)) fs).

(** [rdb.Del(ctx, key).Err()]: [true] is a nil error. *)
Definition rdb_Del (key : string) : State Redis bool := fun r =>
  let '(f, fs) := pop_fault (faults r) in
  if f then (false, mkRedis (kv r) fs)
  else (true, mkRedis (delete key (kv r)) fs).

Definition cart_key (userID : string) : string := "cart:" +:+ userID.

Open Scope state_scope.

Definition getCartHandler (userID : string) : State Redis (Response Cart) :=
  let* res := rdb_Get (cart_key userID) in
  match res with
  | GetNil => ret (mkResponse StatusOK (JSONBody (mkCart userID [])))
  | GetErr => ret (error StatusInternalServerError "Failed to retrieve cart")
  | GetVal cartData =>
      match Unmarshal cartData with
      | None => ret (error StatusInternalServerError "Failed to parse cart")
      | Some cart => ret (mkResponse StatusOK (JSONBody cart))
      end
  end.

(** The loop of [addToCartHandler] over [cart.Items]: the first entry with
    the product id of [newItem] gets its quantity incremented and the loop
    breaks; the boolean is [found]. *)
Fixpoint add_loop (items : list CartItem) (newItem : CartItem)
  : list CartItem * bool :=
  match items with
  | [] => ([], false)
  | item :: rest =>
      if decide (ProductID item = ProductID newItem)
      then (mkCartItem (ProductID item)
                       (int_add (Quantity item) (Quantity newItem)) :: rest,
            true)
      else let '(rest', found) := add_loop rest newItem in
           (item :: rest', found)
  end.

Definition add_item (items : list CartItem) (newItem : CartItem)
  : list CartItem :=
  let '(items', found) := add_loop items newItem in
  if found then items' else items' ++ [newItem].

(** [decoded] is the result of decoding the request body into a
    [CartItem]; [None] is a decoding error. *)
Definition addToCartHandler (userID : string) (decoded : option CartItem)
  : State Redis (Response Cart) :=
  match decoded with
  | None => ret (error StatusBadRequest "Invalid request body")
  | Some newItem =>
      let* res := rdb_Get (cart_key userID) in
      let loaded :=
        match res with
        | GetNil => inl (mkCart userID [])
        | GetErr => inr (error StatusInternalServerError "Failed to retrieve cart")
        | GetVal cartData =>
            match Unmarshal cartData with
            | None => inr (error StatusInternalServerError "Failed to parse cart")
            | Some cart => inl cart
            end
        end in
      match loaded with
      | inr resp => ret resp
      | inl cart =>
          let cart := mkCart (UserID cart) (add_item (Items cart) newItem) in
          match Marshal cart with
          | None => ret (error StatusInternalServerError "Failed to save cart")
          | Some cartJSON =>
              let* ok := rdb_Set (cart_key userID) cartJSON in
              if ok then ret (mkResponse StatusCreated (JSONBody cart))
              else ret (error StatusInternalServerError "Failed to save cart")
          end
      end
  end.

(** The loop of [removeFromCartHandler]: keep the entries whose product id
    differs from the one to remove. *)
Fixpoint remove_loop (items : list CartItem) (productID : Z) : list CartItem :=
  match items with
  | [] => []
  | item :: rest =>
      if decide (ProductID item <> productID)
      then item :: remove_loop rest productID
      else remove_loop rest productID
  end.

(** [decoded] is the decoded [product_id] of the request body. *)
Definition removeFromCartHandler (userID : string) (decoded : option Z)
  : State Redis (Response Cart) :=
  match decoded with
  | None => ret (error StatusBadRequest "Invalid request body")
  | Some productID =>
      let* res := rdb_Get (cart_key userID) in
      match res with
      | GetNil => ret (error StatusNotFound "Cart not found")
      | GetErr => ret (error StatusInternalServerError "Failed to retrieve cart")
      | GetVal cartData =>
          match Unmarshal cartData with
          | None => ret (error StatusInternalServerError "Failed to parse cart")
          | Some cart =>
              let cart := mkCart (UserID cart) (remove_loop (Items cart) productID) in
              match Marshal cart with
              | None => ret (error StatusInternalServerError "Failed to save cart")
              | Some cartJSON =>
                  let* ok := rdb_Set (cart_key userID) cartJSON in
                  if ok then ret (mkResponse StatusOK (JSONBody cart))
                  else ret (error StatusInternalServerError "Failed to save cart")
              end
          end
      end
  end.

Definition clearCartHandler (userID : string) : State Redis (Response Cart) :=
  let* ok := rdb_Del (cart_key userID) in
  if ok then ret (mkResponse StatusOK (MessageBody "Cart cleared successfully"))
  else ret (error StatusInternalServerError "Failed to clear cart").

Close Scope state_scope.

(** The cart that [getCartHandler] reads for a user: the stored value
    decoded, or the empty cart where nothing is stored. *)
Definition load (r : Redis) (userID : string) : option Cart :=
  match kv r !! cart_key userID with
  | None => Some (mkCart userID [])
  | Some data => Unmarshal data
  end.

(** The operations of the service, as the router dispatches them. *)
Inductive Op :=
  | OpGet (userID : string)
  | OpAdd (userID : string) (decoded : option CartItem)
  | OpRemove (userID : string) (decoded : option Z)
  | OpClear (userID : string).

Definition serve (op : Op) : State Redis (Response Cart) :=
  match op with
  | OpGet u => getCartHandler u
  | OpAdd u d => addToCartHandler u d
  | OpRemove u d => removeFromCartHandler u d
  | OpClear u => clearCartHandler u
  end.

(** The stores the service can be in: it starts on an empty store, under
    any schedule of faults, and serves requests one after the other. *)
Inductive reachable : Redis -> Prop :=
  | reach_empty fs : reachable (mkRedis ∅ fs)
  | reach_serve r op : reachable r -> reachable (serve op r).2.

(** Every stored value that decodes is a cart with at most one entry per
    product id. *)
Definition store_unique (r : Redis) : Prop :=
  forall key data c,
    kv r !! key = Some data -> Unmarshal data = Some c ->
    unique_products (Items c).

End Handlers.

(** [add] in the words of the specification: if an entry with the product
    id of the item exists, its quantity is incremented by the quantity of
    the item, otherwise the item is appended.  [plus] is the addition:
    [int_add] for the one of Go, [Z.add] for the one of the integers. *)
Definition has_product (items : list CartItem) (productID : Z) : bool :=
  existsb (fun it => bool_decide (ProductID it = productID)) items.

Definition spec_add (plus : Z -> Z -> Z) (items : list CartItem)
    (newItem : CartItem) : list CartItem :=
  if has_product items (ProductID newItem)
  then map (fun it =>
              if decide (ProductID it = ProductID newItem)
              then mkCartItem (ProductID it) (plus (Quantity it) (Quantity newItem))
              else it) items
  else items ++ [newItem].

(** A codec that keeps the cart as it is, to run the handlers on concrete
    stores. *)
#[export] Program Instance idJSON : JSON Cart := {|
  Marshal := Some;
  Unmarshal := Some
|}.
Next Obligation. intros c. by exists c. Qed.
Next Obligation. by intros c b [= ->]. Qed.

(** Concrete stores: an empty one, and one with a cart of two products
    for user "u1"; neither has a fault to come. *)
Definition empty_store : @Redis Cart := mkRedis ∅ [].

Definition u1_store : @Redis Cart :=
  mkRedis {[ cart_key "u1" := mkCart "u1" [mkCartItem 1 2; mkCartItem 3 1] ]} [].

Section Health.
Context {Blob : Type} `{JSON Blob}.

(** [rdb.Ping(ctx).Result()]: [true] is a nil error. *)
Definition rdb_Ping : State (@Redis Blob) bool := fun r =>
  let '(f, fs) := pop_fault (faults r) in
  if f then (false, mkRedis (kv r) fs) else (true, mkRedis (kv r) fs).

Definition healthHandler : State (@Redis Blob) (Response Health) :=
  (let* ok := rdb_Ping in
   let status := if ok then "healthy" else "unhealthy" in
   ret (mkResponse StatusOK (JSONBody (mkHealth status "cart-service"))))%state.

(** Every stored value that decodes is a cart of the user whose key it is
    stored under. *)
Definition store_owned (r : @Redis Blob) : Prop :=
  forall key data c,
    kv r !! key = Some data -> Unmarshal data = Some c ->
    key = cart_key (UserID c).

(** The user a request is for. *)
Definition user_of (op : Op) : string :=
  match op with
  | OpGet u | OpAdd u _ | OpRemove u _ | OpClear u => u
  end.

End Health.

End CartService.

(** * Product service *)
Module ProductService.

Record Product := mkProduct {
  ID : Z;                 (* int, json "id" *)
  Name : string;          (* json "name" *)
  Description : string;   (* json "description" *)
  Price : float64;        (* json "price" *)
  Stock : Z               (* int, json "stock" *)
}.

(** The binary64 value nearest to a decimal constant of the source, as
    mantissa and exponent: [m * 2 ^ e]. *)
Definition f64 (m : positive) (e : Z) : float64 := S754_finite false m e.

Definition products : list Product := [
  mkProduct 1 "Laptop" "High-performance laptop"
    (f64 8796005061277778 (-43)) (* 999.99 *) 10;
  mkProduct 2 "Mouse" "Wireless mouse"
    (f64 8441434551552573 (-48)) (* 29.99 *) 50;
  mkProduct 3 "Keyboard" "Mechanical keyboard"
    (f64 5628795846771343 (-46)) (* 79.99 *) 30;
  mkProduct 4 "Monitor" "4K Monitor"
    (f64 7036698495905956 (-44)) (* 399.99 *) 15;
  mkProduct 5 "Headphones" "Noise-cancelling headphones"
    (f64 7036522574045512 (-45)) (* 199.99 *) 25
].

(** *** strconv.Atoi

    [Atoi s] is [ParseInt(s, 10, 0)] converted to [int]: an optional sign,
    then one or more decimal digits and nothing else (a syntax error
    otherwise), of a value in the range of [int] (a range error
    otherwise).  [None] is a non-nil error. *)
Definition is_digit (a : ascii) : bool :=
  (48 <=? Z.of_nat (nat_of_ascii a)) && (Z.of_nat (nat_of_ascii a) <=? 57).

Definition digit_value (a : ascii) : Z := Z.of_nat (nat_of_ascii a) - 48.

Fixpoint all_digits (s : string) : bool :=
  match s with
  | EmptyString => true
  | String a rest => is_digit a && all_digits rest
  end.

Fixpoint digits_value (s : string) (acc : Z) : Z :=
  match s with
  | EmptyString => acc
  | String a rest => digits_value rest (acc * 10 + digit_value a)
  end.

(** The sign of a numeral and what follows it. *)
Definition split_sign (s : string) : bool * string :=
  match s with
  | String "-"%char rest => (true, rest)
  | String "+"%char rest => (false, rest)
  | _ => (false, s)
  end.

Definition Atoi (s : string) : option Z :=
  let '(neg, digits) := split_sign s in
  match digits with
  | EmptyString => None                               (* ErrSyntax *)
  | _ =>
      if all_digits digits then
        let n := digits_value digits 0 in
        let v := if neg then - n else n in
        if (minInt <=? v) && (v <=? maxInt) then Some v
        else None                                     (* ErrRange *)
      else None                                       (* ErrSyntax *)
  end.

Definition getProductsHandler : Response (list Product) :=
  mkResponse StatusOK (JSONBody products).

(** The loop of [getProductByIDHandler] over the catalog: the first
    product with the id. *)
Fixpoint find_product (ps : list Product) (id : Z) : option Product :=
  match ps with
  | [] => None
  | product :: rest =>
      if decide (ID product = id) then Some product else find_product rest id
  end.

(** [idVar] is the path variable [vars["id"]]. *)
Definition getProductByIDHandler (idVar : string) : Response Product :=
  match Atoi idVar with
  | None => error StatusBadRequest "Invalid product ID"
  | Some id =>
      match find_product products id with
      | Some product => mkResponse StatusOK (JSONBody product)
      | None => error StatusNotFound "Product not found"
      end
  end.

(** A numeric identifier, in the words of the specification: a decimal
    numeral, with or without a sign; and the integer it denotes. *)
Definition numeric (s : string) : bool :=
  let '(_, digits) := split_sign s in
  match digits with
  | EmptyString => false
  | _ => all_digits digits
  end.

Definition numeral_value (s : string) : Z :=
  let '(neg, digits) := split_sign s in
  if neg then - digits_value digits 0 else digits_value digits 0.

End ProductService.

(** * Order service *)
Module OrderService.

Record OrderItem := mkOrderItem {
  ProductID : Z;   (* int, json "product_id" *)
  Quantity : Z     (* int, json "quantity" *)
}.

Record Order := mkOrder {
  ID : Z;                    (* int, json "id" *)
  UserID : string;           (* json "user_id" *)
  Items : list OrderItem;    (* json "items" *)
  Total : float64;           (* json "total" *)
  Status : string;           (* json "status" *)
  CreatedAt : Z              (* time.Time, json "created_at": an instant *)
}.

(** The struct [orderRequest] that [createOrderHandler] decodes the body
    into. *)
Record orderRequest := mkOrderRequest {
  ReqUserID : string;          (* json "user_id" *)
  ReqItems : list OrderItem;   (* json "items" *)
  ReqTotal : float64           (* json "total" *)
}.

(** ** The relational store

    The two tables of [createTables], with the columns of the schema. *)
Record OrderRow := mkOrderRow {
  row_id : Z;               (* id SERIAL PRIMARY KEY *)
  row_user_id : string;     (* user_id *)
  row_total : float64;      (* total *)
  row_status : string;      (* status *)
  row_created_at : Z        (* created_at DEFAULT CURRENT_TIMESTAMP *)
}.

Record ItemRow := mkItemRow {
  item_id : Z;              (* id SERIAL PRIMARY KEY *)
  item_order_id : Z;        (* order_id REFERENCES orders(id) *)
  item_product_id : Z;      (* product_id *)
  item_quantity : Z         (* quantity *)
}.

Record Tables := mkTables {
  orders : list OrderRow;
  order_items : list ItemRow
}.

(** The statements the service sends, as the store receives them. *)
Inductive Stmt :=
  | Begin
  | InsertOrder (user_id : string) (total : float64) (status : string)
  | InsertItem (order_id product_id quantity : Z)
  | Commit
  | Rollback
  | SelectOrdersByUser (user_id : string)
  | ScanOrder (id : Z)
  | SelectItems (order_id : Z)
  | SelectOrder (id : string).

(** The handle [db]: what is committed, the tables as the open transaction
    of the handler sees them (if one is open), the two SERIAL sequences,
    which do not roll back, the clock of the store, the faults to come and
    the statements received so far with their success, oldest first. *)
Record DB := mkDB {
  committed : Tables;
  tx : option Tables;
  orders_id_seq : Z;
  order_items_id_seq : Z;
  clock : Z;
  faults : list bool;
  log : list (Stmt * bool)
}.

(** A fallible call: it consumes one entry of the fault schedule and is
    logged with its outcome; [true] is success. *)
Definition call (stmt : Stmt) : State DB bool := fun db =>
  let '(f, fs) := pop_fault (faults db) in
  (negb f,
   mkDB (committed db) (tx db) (orders_id_seq db) (order_items_id_seq db)
        (clock db) fs (log db ++ [(stmt, negb f)])).

Definition set_tx (t : option Tables) : State DB unit := fun db =>
  (tt, mkDB (committed db) t (orders_id_seq db) (order_items_id_seq db)
            (clock db) (faults db) (log db)).

(** [db.Begin()]: the transaction starts from what is committed. *)
Definition db_Begin : State DB bool := fun db =>
  let '(ok, db1) := call Begin db in
  if ok then (true, (set_tx (Some (committed db1)) db1).2) else (false, db1).

(** [tx.QueryRow("INSERT INTO orders ... RETURNING id", userID, total,
    status).Scan(&orderID)]: the new id, or [None] on an error. *)
Definition tx_insert_order (user_id : string) (total : float64)
    (status : string) : State DB (option Z) := fun db =>
  let '(ok, db1) := call (InsertOrder user_id total status) db in
  match ok, tx db1 with
  | true, Some t =>
      let id := orders_id_seq db1 in
      let row := mkOrderRow id user_id total status (clock db1) in
      (Some id,
       mkDB (committed db1)
            (Some (mkTables (orders t ++ [row]) (order_items t)))
            (id + 1) (order_items_id_seq db1) (clock db1) (faults db1)
            (log db1))
  | _, _ => (None, db1)
  end.

(** [tx.Exec("INSERT INTO order_items ...", orderID, productID,
    quantity)]: [true] is a nil error. *)
Definition tx_insert_item (order_id product_id quantity : Z)
  : State DB bool := fun db =>
  let '(ok, db1) := call (InsertItem order_id product_id quantity) db in
  match ok, tx db1 with
  | true, Some t =>
      let id := order_items_id_seq db1 in
      let row := mkItemRow id order_id product_id quantity in
      (true,
       mkDB (committed db1)
            (Some (mkTables (orders t) (order_items t ++ [row])))
            (orders_id_seq db1) (id + 1) (clock db1) (faults db1) (log db1))
  | _, _ => (false, db1)
  end.

(** [tx.Commit()]: on success the tables of the transaction become the
    committed ones; either way the transaction is over. *)
Definition tx_Commit : State DB bool := fun db =>
  let '(ok, db1) := call Commit db in
  match ok, tx db1 with
  | true, Some t =>
      (true,
       mkDB t None (orders_id_seq db1) (order_items_id_seq db1) (clock db1)
            (faults db1) (log db1))
  | _, _ => (false, (set_tx None db1).2)
  end.

(** [tx.Rollback()], whose error the handler drops: an open transaction
    is discarded; after [Commit] nothing is sent ([sql.ErrTxDone]). *)
Definition tx_Rollback : State DB unit := fun db =>
  match tx db with
  | Some _ =>
      (tt, mkDB (committed db) None (orders_id_seq db)
                (order_items_id_seq db) (clock db) (faults db)
                (log db ++ [(Rollback, true)]))
  | None => (tt, db)
  end.

(** [ORDER BY created_at DESC].  Rows of one [created_at] come in an order
    the store chooses; here it is the one the sort leaves them in. *)
Definition newer_first (a b : OrderRow) : Prop :=
  row_created_at b <= row_created_at a.

#[export] Instance newer_first_dec a b : Decision (newer_first a b).
Proof. unfold newer_first. apply _. Defined.

Definition orders_of_user (t : Tables) (user_id : string) : list OrderRow :=
  merge_sort newer_first
    (filter (fun row => row_user_id row = user_id) (orders t)).

Definition items_of_order (t : Tables) (order_id : Z) : list ItemRow :=
  filter (fun row => item_order_id row = order_id) (order_items t).

(** [db.Query("SELECT ... FROM orders WHERE user_id = $1 ORDER BY
    created_at DESC", userID)]: the rows, or [None] on an error. *)
Definition db_Query_orders (user_id : string)
  : State DB (option (list OrderRow)) := fun db =>
  let '(ok, db1) := call (SelectOrdersByUser user_id) db in
  if ok then (Some (orders_of_user (committed db1) user_id), db1)
  else (None, db1).

(** [db.Query("SELECT product_id, quantity FROM order_items WHERE
    order_id = $1", id)]. *)
Definition db_Query_items (order_id : Z)
  : State DB (option (list ItemRow)) := fun db =>
  let '(ok, db1) := call (SelectItems order_id) db in
  if ok then (Some (items_of_order (committed db1) order_id), db1)
  else (None, db1).

(** The inner loop over [itemRows]: each row scanned into an [OrderItem]
    and appended. *)
Definition scan_items (rows : list ItemRow) : list OrderItem :=
  map (fun row => mkOrderItem (item_product_id row) (item_quantity row)) rows.

Definition order_of_row (row : OrderRow) (items : list OrderItem) : Order :=
  mkOrder (row_id row) (row_user_id row) items (row_total row)
          (row_status row) (row_created_at row).

(** The log entry of the insert of a line item, and the row it adds
    when it is the [i]-th insert after the sequence stood at [first_id]. *)
Definition item_stmt (orderID : Z) (ok : bool) (item : OrderItem)
  : Stmt * bool :=
  (InsertItem orderID (ProductID item) (Quantity item), ok).

Definition item_row (orderID first_id : Z) (i : nat) (item : OrderItem)
  : ItemRow :=
  mkItemRow (first_id + Z.of_nat i) orderID (ProductID item) (Quantity item).

Open Scope state_scope.

(** ** createOrderHandler *)

(** The loop over [orderRequest.Items]: it stops at the first insert that
    fails; [true] when every insert succeeded. *)
Fixpoint insert_items (orderID : Z) (items : list OrderItem)
  : State DB bool :=
  match items with
  | [] => ret true
  | item :: rest =>
      let* ok := tx_insert_item orderID (ProductID item) (Quantity item) in
      if ok then insert_items orderID rest else ret false
  end.

(** [decoded] is the decoded request body, [None] on a decoding error;
    [now] is [time.Now()] of the handler. *)
Definition createOrderHandler (decoded : option orderRequest) (now : Z)
  : State DB (Response Order) :=
  match decoded with
  | None => ret (error StatusBadRequest "Invalid request body")
  | Some orderRequest =>
      if bool_decide (ReqUserID orderRequest = "")
         || bool_decide (length (ReqItems orderRequest) = 0%nat)
      then ret (error StatusBadRequest "User ID and items are required")
      else
        let* began := db_Begin in
        if negb began
        then ret (error StatusInternalServerError "Failed to create order")
        else
          let* resp :=
            (let* inserted :=
               tx_insert_order (ReqUserID orderRequest)
                               (ReqTotal orderRequest) "pending" in
             match inserted with
             | None =>
                 ret (error StatusInternalServerError "Failed to create order")
             | Some orderID =>
                 let* ok := insert_items orderID (ReqItems orderRequest) in
                 if negb ok
                 then ret (error StatusInternalServerError
                                 "Failed to create order items")
                 else
                   let* done := tx_Commit in
                   if negb done
                   then ret (error StatusInternalServerError
                                   "Failed to commit order")
                   else
                     ret (mkResponse StatusCreated
                            (JSONBody
                               (mkOrder orderID (ReqUserID orderRequest)
                                        (ReqItems orderRequest)
                                        (ReqTotal orderRequest)
                                        "pending" now)))
             end) in
          (* defer tx.Rollback() *)
          let* _ := tx_Rollback in
          ret resp
  end.

(** ** getUserOrdersHandler *)

(** The loop over [rows]: [None] when a [rows.Scan] fails; an order whose
    items query fails is passed over ([continue]). *)
Fixpoint collect_orders (rows : list OrderRow) (orders : list Order)
  : State DB (option (list Order)) :=
  match rows with
  | [] => ret (Some orders)
  | row :: rest =>
      let* scanned := call (ScanOrder (row_id row)) in
      if negb scanned then ret None
      else
        let* itemRows := db_Query_items (row_id row) in
        match itemRows with
        | None => collect_orders rest orders
        | Some itemRows =>
            collect_orders rest
              (orders ++ [order_of_row row (scan_items itemRows)])
        end
  end.

Definition getUserOrdersHandler (userID : string)
  : State DB (Response (list Order)) :=
  let* rows := db_Query_orders userID in
  match rows with
  | None => ret (error StatusInternalServerError "Failed to retrieve orders")
  | Some rows =>
      let* orders := collect_orders rows [] in
      match orders with
      | None => ret (error StatusInternalServerError "Failed to parse orders")
      | Some orders => ret (mkResponse StatusOK (JSONBody orders))
      end
  end.

(** ** getOrderDetailHandler *)

Section Detail.

(** The conversion of the store from the text of a parameter to the
    integer type of the column [orders.id]; [None] where the store rejects
    the text.  It is the store's, not the service's. *)
Variable int4in : string -> option Z.

Inductive RowResult :=
  | RowFound (row : OrderRow)
  | ErrNoRows          (* sql.ErrNoRows *)
  | RowErr.            (* any other error *)

(** [db.QueryRow("SELECT ... FROM orders WHERE id = $1", orderID)
    .Scan(...)], with the path segment as the parameter. *)
Definition db_QueryRow_order (orderID : string) : State DB RowResult :=
  fun db =>
  let '(ok, db1) := call (SelectOrder orderID) db in
  if ok then
    match int4in orderID with
    | None => (RowErr, db1)
    | Some id =>
        match filter (fun row => row_id row = id) (orders (committed db1)) with
        | row :: _ => (RowFound row, db1)
        | [] => (ErrNoRows, db1)
        end
    end
  else (RowErr, db1).

(** [orderID] is the path variable [vars["orderId"]]. *)
Definition getOrderDetailHandler (orderID : string)
  : State DB (Response Order) :=
  let* res := db_QueryRow_order orderID in
  match res with
  | ErrNoRows => ret (error StatusNotFound "Order not found")
  | RowErr => ret (error StatusInternalServerError "Failed to retrieve order")
  | RowFound row =>
      let* rows := db_Query_items (row_id row) in
      match rows with
      | None =>
          ret (error StatusInternalServerError "Failed to retrieve order items")
      | Some rows =>
          ret (mkResponse StatusOK (JSONBody (order_of_row row (scan_items rows))))
      end
  end.

(** The requests of the service, as the router dispatches them. *)
Inductive Op :=
  | OpCreate (decoded : option orderRequest) (now : Z)
  | OpList (userID : string)
  | OpDetail (orderID : string).

Definition serve (op : Op) (db : DB) : DB :=
  match op with
  | OpCreate decoded now => (createOrderHandler decoded now db).2
  | OpList userID => (getUserOrdersHandler userID db).2
  | OpDetail orderID => (getOrderDetailHandler orderID db).2
  end.

Definition set_clock (c : Z) (db : DB) : DB :=
  mkDB (committed db) (tx db) (orders_id_seq db) (order_items_id_seq db)
       c (faults db) (log db).

(** The store after [createTables]: both tables empty, both sequences at
    their first value. *)
Definition db_init (c : Z) (fs : list bool) : DB :=
  mkDB (mkTables [] []) None 1 1 c fs [].

(** The stores the service can be in: it starts on the empty tables,
    under any schedule of faults, and serves requests one after the other
    while the clock of the store advances. *)
Inductive reachable : DB -> Prop :=
  | reach_init c fs : reachable (db_init c fs)
  | reach_serve db op : reachable db -> reachable (serve op db)
  | reach_tick db c : reachable db -> clock db <= c -> reachable (set_clock c db).

End Detail.

Close Scope state_scope.

(** The rows whose items query does not fail, where [failed] tells, row
    by row, whether it does. *)
Fixpoint answered {A} (rows : list A) (failed : list bool) : list A :=
  match rows, failed with
  | row :: rows', f :: failed' =>
      if f then answered rows' failed' else row :: answered rows' failed'
  | _, _ => []
  end.

(** The order that [getUserOrdersHandler] builds from a row when the
    items query of the row succeeds. *)
Definition order_with_items (t : Tables) (row : OrderRow) : Order :=
  order_of_row row (scan_items (items_of_order t (row_id row))).

(** What holds of every store the service reaches: the sequence of order
    ids is past every id in use, the ids are positive and distinct, and no
    transaction is left open between requests. *)
Definition db_wf (db : DB) : Prop :=
  0 < orders_id_seq db /\
  tx db = None /\
  NoDup (map row_id (orders (committed db))) /\
  forall row, row ∈ orders (committed db) -> 0 < row_id row < orders_id_seq db.

(** A concrete request, the one of the specification's scenario: two
    units of product 1 for user "u1", of total 1999.98; and one of two line
    items. *)
Definition u1_request : orderRequest :=
  mkOrderRequest "u1" [mkOrderItem 1 2]
                 (S754_finite false 8796005061277778 (-42)).

Definition u1_request2 : orderRequest :=
  mkOrderRequest "u1" [mkOrderItem 1 2; mkOrderItem 3 1]
                 (S754_finite false 8796005061277778 (-42)).

(** ** healthHandler *)

(** [db.Ping()]: [true] is a nil error.  It sends no statement. *)
Definition db_Ping : State DB bool := fun db =>
  let '(f, fs) := pop_fault (faults db) in
  (negb f,
   mkDB (committed db) (tx db) (orders_id_seq db) (order_items_id_seq db)
        (clock db) fs (log db)).

Definition healthHandler : State DB (Response Health) :=
  (let* ok := db_Ping in
   let status := if ok then "healthy" else "unhealthy" in
   ret (mkResponse StatusOK (JSONBody (mkHealth status "order-service"))))%state.

(** ** main: the connection loop and createTables *)

(** The loop of [main] that connects to the store: at most ten rounds of
    [sql.Open] and, when it succeeds, [db.Ping]; a round that fails is
    followed by [time.Sleep(3 * time.Second)], a round that succeeds
    breaks out.  [n] counts the rounds left, [err] is whether the variable
    [err] is non-nil and [slept] the seconds slept so far. *)
Fixpoint connect_loop (n : nat) (err : bool) (slept : Z) (fs : list bool)
  : bool * Z * list bool :=
  match n with
  | O => (err, slept, fs)
  | S n' =>
      let '(open_fails, fs1) := pop_fault fs in
      if open_fails then connect_loop n' true (slept + 3) fs1
      else
        let '(ping_fails, fs2) := pop_fault fs1 in
        if ping_fails then connect_loop n' true (slept + 3) fs2
        else (false, slept, fs2)
  end.

(** The faults of a round that fails: at [sql.Open] when [open_fails],
    at [db.Ping] otherwise. *)
Definition round_faults (open_fails : bool) : list bool :=
  if open_fails then [true] else [false; true].

(** The tables of a database and their SERIAL sequences, where they
    exist. *)
Record Database := mkDatabase {
  tbl_orders : option (list OrderRow * Z);
  tbl_order_items : option (list ItemRow * Z)
}.

(** [CREATE TABLE IF NOT EXISTS]: a table that exists is left as it is, a
    new one is empty with its sequence at 1. *)
Definition create_if_not_exists {A} (tbl : option (list A * Z))
  : option (list A * Z) :=
  match tbl with
  | Some t => Some t
  | None => Some ([], 1)
  end.

(** [createTables]: the two statements in turn; [false] is
    [log.Fatalf], at the first [db.Exec] that fails. *)
Definition createTables (d : Database) (fs : list bool)
  : bool * Database * list bool :=
  let '(f1, fs1) := pop_fault fs in
  if f1 then (false, d, fs1)
  else
    let d1 := mkDatabase (create_if_not_exists (tbl_orders d))
                         (tbl_order_items d) in
    let '(f2, fs2) := pop_fault fs1 in
    if f2 then (false, d1, fs2)
    else
      (true,
       mkDatabase (tbl_orders d1) (create_if_not_exists (tbl_order_items d1)),
       fs2).

(** The handle the handlers work on, once both tables exist. *)
Definition db_open (d : Database) (c : Z) (fs : list bool) : option DB :=
  match tbl_orders d, tbl_order_items d with
  | Some (os, oseq), Some (its, iseq) =>
      Some (mkDB (mkTables os its) None oseq iseq c fs [])
  | _, _ => None
  end.

(** [main] up to [http.ListenAndServe]: the store the handlers are
    registered on, or [None] where [main] ends in [log.Fatalf]. *)
Definition startup (d : Database) (c : Z) (fs : list bool) : option DB :=
  let '(err, _, fs1) := connect_loop 10 false 0 fs in
  if err then None
  else
    let '(ok, d1, fs2) := createTables d fs1 in
    if ok then db_open d1 c fs2 else None.

(** ** Sequences of requests, and what the tables hold *)

Definition serve_all (int4in : string -> option Z) (ops : list Op) (db : DB)
  : DB :=
  fold_left (fun d op => serve int4in op d) ops db.

(** The tables once the order of a request is committed on a store. *)
Definition committed_with (db : DB) (req : orderRequest) : Tables :=
  mkTables
    (orders (committed db)
       ++ [mkOrderRow (orders_id_seq db) (ReqUserID req) (ReqTotal req)
                      "pending" (clock db)])
    (order_items (committed db)
       ++ imap (item_row (orders_id_seq db) (order_items_id_seq db))
               (ReqItems req)).

(** Every order is pending, has a user and at least one line item, and
    every line item is the item of an order. *)
Definition tables_consistent (t : Tables) : Prop :=
  (forall row, row ∈ orders t ->
     row_status row = "pending" /\ row_user_id row <> "" /\
     exists item, item ∈ order_items t /\ item_order_id item = row_id row) /\
  (forall item, item ∈ order_items t ->
     exists row, row ∈ orders t /\ row_id row = item_order_id item).

Definition newest_first (a b : Order) : Prop := CreatedAt b <= CreatedAt a.

End OrderService.

(** * Properties *)

(** ** Integers and fault schedules *)

Lemma wrap_in_range x : in_int x -> wrap x = x.
Proof.
  unfold in_int, wrap, minInt, maxInt, intSize. intros Hx.
  rewrite Z.mod_small; lia.
Qed.

Lemma wrap_range x : in_int (wrap x).
Proof.
  unfold in_int, wrap, minInt, maxInt, intSize.
  pose proof (Z.mod_pos_bound (x + 2 ^ (64 - 1)) (2 ^ 64) ltac:(lia)). lia.
Qed.

Lemma pop_healthy n fs :
  healthy (S n) fs = true ->
  pop_fault fs = (false, drop 1 fs) /\ healthy n (drop 1 fs) = true.
Proof.
  unfold healthy. destruct fs as [|f fs]; simpl.
  - intros _. split; [done|]. by destruct n.
  - rewrite drop_0. intros [Hf Hn]%andb_true_iff. by destruct f.
Qed.

Lemma healthy_drop n m fs :
  healthy (n + m) fs = true -> healthy m (drop n fs) = true.
Proof.
  unfold healthy. revert fs. induction n as [|n IH]; intros fs; simpl.
  - by rewrite drop_0.
  - destruct fs as [|f fs]; simpl; [intros _; by destruct m|].
    intros [_ Hn]%andb_true_iff. by apply IH.
Qed.

Lemma healthy_drop_le n m fs :
  (n <= m)%nat -> healthy m fs = true -> healthy n fs = true.
Proof.
  unfold healthy. revert m fs. induction n as [|n IH]; intros m fs Hle;
    [done|].
  destruct m as [|m]; [lia|]. destruct fs as [|f fs]; simpl; [done|].
  intros [Hf Hm]%andb_true_iff. rewrite Hf. simpl. apply (IH m); [lia|done].
Qed.

(** ** Cart service *)

Section CartTheory.
Import CartService.
Context {Blob : Type} `{JSON Blob}.
Implicit Types (r : @Redis Blob) (c : Cart) (items : list CartItem).

Lemma add_loop_ids items it :
  map ProductID (add_loop items it).1 = map ProductID items.
Proof.
  induction items as [|x xs IH]; simpl; [done|].
  case_decide; simpl; [done|].
  destruct (add_loop xs it) as [xs' fnd]; simpl in *. by rewrite IH.
Qed.

Lemma add_loop_found items it :
  (add_loop items it).2 = true <-> ProductID it ∈ map ProductID items.
Proof.
  induction items as [|x xs IH]; simpl.
  - split; [done|]. intros Hin. by apply elem_of_nil in Hin.
  - case_decide as Hx; simpl.
    + split; [|done]. intros _. rewrite Hx. apply list_elem_of_here.
    + destruct (add_loop xs it) as [xs' fnd]; simpl in *.
      rewrite IH, elem_of_cons. intuition congruence.
Qed.

Lemma add_item_unique items it :
  unique_products items -> unique_products (add_item items it).
Proof.
  unfold unique_products, add_item. intros Hnd.
  pose proof (add_loop_ids items it) as Hids.
  pose proof (add_loop_found items it) as Hfnd.
  destruct (add_loop items it) as [items' fnd]; simpl in *.
  destruct fnd.
  - by rewrite Hids.
  - rewrite map_app, Hids. simpl. apply NoDup_app. split; [done|].
    split; [|apply NoDup_singleton].
    intros x Hx ->%list_elem_of_singleton. apply Hfnd in Hx. done.
Qed.

Lemma remove_loop_filter items pid :
  remove_loop items pid = filter (fun it => ProductID it <> pid) items.
Proof.
  induction items as [|x xs IH]; simpl; [done|].
  rewrite filter_cons. case_decide; by rewrite IH.
Qed.

Lemma remove_loop_ids items pid z :
  z ∈ map ProductID (remove_loop items pid) -> z ∈ map ProductID items.
Proof.
  induction items as [|y ys IH]; simpl; [done|].
  case_decide; simpl; rewrite ?elem_of_cons; tauto.
Qed.

Lemma remove_loop_unique items pid :
  unique_products items -> unique_products (remove_loop items pid).
Proof.
  unfold unique_products. induction items as [|x xs IH]; simpl; [done|].
  intros [Hx Hxs]%NoDup_cons. case_decide; [|by apply IH].
  simpl. apply NoDup_cons. split; [|by apply IH].
  intros Hin. apply Hx. by eapply remove_loop_ids.
Qed.

Lemma add_loop_absent items it :
  ProductID it ∉ map ProductID items -> add_loop items it = (items, false).
Proof.
  induction items as [|x xs IH]; simpl; [done|].
  rewrite not_elem_of_cons. intros [Hx Hxs].
  case_decide; [congruence|]. by rewrite IH.
Qed.

Lemma has_product_absent items pid :
  pid ∉ map ProductID items -> has_product items pid = false.
Proof.
  unfold has_product. induction items as [|x xs IH]; simpl; [done|].
  rewrite not_elem_of_cons. intros [Hx Hxs].
  rewrite bool_decide_eq_false_2 by congruence. by apply IH.
Qed.

Lemma increment_absent (plus : Z -> Z -> Z) items it :
  ProductID it ∉ map ProductID items ->
  map (fun x => if decide (ProductID x = ProductID it)
                then mkCartItem (ProductID x) (plus (Quantity x) (Quantity it))
                else x) items = items.
Proof.
  induction items as [|x xs IH]; simpl; [done|].
  rewrite not_elem_of_cons. intros [Hx Hxs].
  case_decide; [congruence|]. by rewrite IH.
Qed.

Lemma has_product_found items it :
  has_product items (ProductID it) = (add_loop items it).2.
Proof.
  unfold has_product. induction items as [|x xs IH]; simpl; [done|].
  case_decide; simpl.
  - by rewrite bool_decide_eq_true_2.
  - rewrite bool_decide_eq_false_2 by done. simpl.
    rewrite IH. by destruct (add_loop xs it).
Qed.

(** Under uniqueness the loop of the handler, which stops at the first
    match, does what the specification says of every match. *)
Lemma add_item_spec items it :
  unique_products items -> add_item items it = spec_add int_add items it.
Proof.
  unfold unique_products, add_item, spec_add.
  induction items as [|x xs IH]; simpl; [done|].
  intros [Hx Hxs]%NoDup_cons. specialize (IH Hxs).
  rewrite has_product_found in IH |- *. simpl.
  case_decide as Hd; simpl.
  - rewrite bool_decide_eq_true_2 by done. simpl.
    rewrite increment_absent; [done|]. by rewrite <- Hd.
  - rewrite bool_decide_eq_false_2 by done. simpl.
    destruct (add_loop xs it) as [xs' fnd]; simpl in *.
    destruct fnd; by rewrite IH.
Qed.

(** *** The handlers on a store that answers *)

Lemma rdb_Get_healthy n r key :
  healthy (S n) (faults r) = true ->
  rdb_Get key r =
    (match kv r !! key with Some data => GetVal data | None => GetNil end,
     mkRedis (kv r) (drop 1 (faults r))) /\
  healthy n (drop 1 (faults r)) = true.
Proof.
  intros [Hp Hh]%pop_healthy. split; [|done].
  unfold rdb_Get. rewrite Hp. by destruct (kv r !! key).
Qed.

Lemma rdb_Set_healthy n r key value :
  healthy (S n) (faults r) = true ->
  rdb_Set key value r =
    (true, mkRedis (<[key := value]> (kv r)) (drop 1 (faults r))) /\
  healthy n (drop 1 (faults r)) = true.
Proof.
  intros [Hp Hh]%pop_healthy. split; [|done].
  unfold rdb_Set. by rewrite Hp.
Qed.

Lemma rdb_Del_healthy n r key :
  healthy (S n) (faults r) = true ->
  rdb_Del key r = (true, mkRedis (delete key (kv r)) (drop 1 (faults r))) /\
  healthy n (drop 1 (faults r)) = true.
Proof.
  intros [Hp Hh]%pop_healthy. split; [|done].
  unfold rdb_Del. by rewrite Hp.
Qed.

Lemma getCartHandler_healthy r u :
  healthy 1 (faults r) = true ->
  getCartHandler u r =
    (match load r u with
     | Some c => mkResponse StatusOK (JSONBody c)
     | None => error StatusInternalServerError "Failed to parse cart"
     end, mkRedis (kv r) (drop 1 (faults r))).
Proof.
  intros [Hg _]%(rdb_Get_healthy 0 r (cart_key u)).
  unfold getCartHandler, bind, load. rewrite Hg.
  destruct (kv r !! cart_key u) as [data|]; [|done].
  by destruct (Unmarshal data).
Qed.

Lemma addToCartHandler_healthy r u c it :
  healthy 2 (faults r) = true ->
  load r u = Some c ->
  let cart := mkCart (UserID c) (add_item (Items c) it) in
  exists data,
    Marshal cart = Some data /\
    addToCartHandler u (Some it) r =
      (mkResponse StatusCreated (JSONBody cart),
       mkRedis (<[cart_key u := data]> (kv r)) (drop 2 (faults r))).
Proof.
  intros Hh Hl cart.
  destruct (Marshal_total cart) as [data Hm]. exists data. split; [done|].
  destruct (rdb_Get_healthy 1 r (cart_key u) Hh) as [Hg Hh1].
  unfold addToCartHandler, bind, load in *. rewrite Hg.
  destruct (kv r !! cart_key u) as [data0|] eqn:Hk.
  - rewrite Hl. fold cart. rewrite Hm.
    destruct (rdb_Set_healthy 0 (mkRedis (kv r) (drop 1 (faults r)))
                (cart_key u) data Hh1) as [Hs _].
    rewrite Hs. simpl. by rewrite drop_drop.
  - injection Hl as <-. subst cart. simpl in *. rewrite Hm.
    destruct (rdb_Set_healthy 0 (mkRedis (kv r) (drop 1 (faults r)))
                (cart_key u) data Hh1) as [Hs _].
    rewrite Hs. simpl. by rewrite drop_drop.
Qed.

Lemma removeFromCartHandler_healthy r u pid data c :
  healthy 2 (faults r) = true ->
  kv r !! cart_key u = Some data ->
  Unmarshal data = Some c ->
  let cart := mkCart (UserID c) (remove_loop (Items c) pid) in
  exists data',
    Marshal cart = Some data' /\
    removeFromCartHandler u (Some pid) r =
      (mkResponse StatusOK (JSONBody cart),
       mkRedis (<[cart_key u := data']> (kv r)) (drop 2 (faults r))).
Proof.
  intros Hh Hk Hu cart.
  destruct (Marshal_total cart) as [data' Hm]. exists data'. split; [done|].
  destruct (rdb_Get_healthy 1 r (cart_key u) Hh) as [Hg Hh1].
  unfold removeFromCartHandler, bind. rewrite Hg, Hk, Hu. fold cart.
  rewrite Hm.
  destruct (rdb_Set_healthy 0 (mkRedis (kv r) (drop 1 (faults r)))
              (cart_key u) data' Hh1) as [Hs _].
  rewrite Hs. simpl. by rewrite drop_drop.
Qed.

Lemma load_insert (m : gmap string Blob) u c data fs :
  Marshal c = Some data ->
  load (mkRedis (<[cart_key u := data]> m) fs) u = Some c.
Proof.
  intros Hm. unfold load. simpl. rewrite lookup_insert_eq.
  by apply Unmarshal_Marshal.
Qed.

(** *** The store keeps carts with one entry per product *)

Lemma store_unique_insert r key data c fs :
  store_unique r -> Marshal c = Some data -> unique_products (Items c) ->
  store_unique (mkRedis (<[key := data]> (kv r)) fs).
Proof.
  intros Hr Hm Hc key' data' c'. simpl.
  destruct (decide (key = key')) as [<-|Hne].
  - rewrite lookup_insert_eq. intros [= <-].
    rewrite (Unmarshal_Marshal _ _ Hm). by intros [= <-].
  - rewrite lookup_insert_ne by done. apply Hr.
Qed.

Lemma store_unique_faults r fs :
  store_unique r -> store_unique (mkRedis (kv r) fs).
Proof. intros Hr key data c. simpl. apply Hr. Qed.

Lemma serve_unique op r : store_unique r -> store_unique (serve op r).2.
Proof.
  intros Hr. destruct op as [u|u [it|]|u [pid|]|u]; simpl;
    try (by destruct r).
  - (* get *)
    unfold getCartHandler, bind, rdb_Get.
    destruct (pop_fault (faults r)) as [[] fs]; simpl;
      [by apply store_unique_faults|].
    destruct (kv r !! cart_key u) as [data|]; simpl;
      [destruct (Unmarshal data); simpl|]; by apply store_unique_faults.
  - (* add *)
    unfold addToCartHandler, bind, rdb_Get, rdb_Set.
    destruct (pop_fault (faults r)) as [[] fs]; simpl;
      [by apply store_unique_faults|].
    destruct (kv r !! cart_key u) as [data|] eqn:Hk; simpl.
    + destruct (Unmarshal data) as [c|] eqn:Hu; simpl;
        [|by apply store_unique_faults].
      destruct (Marshal _) as [data'|] eqn:Hm; simpl;
        [|by apply store_unique_faults].
      destruct (pop_fault fs) as [[] fs']; simpl;
        [by apply store_unique_faults|].
      eapply (store_unique_insert (mkRedis (kv r) fs)); [done|exact Hm|].
      simpl. apply add_item_unique. by eapply Hr.
    + destruct (Marshal _) as [data'|] eqn:Hm; simpl;
        [|by apply store_unique_faults].
      destruct (pop_fault fs) as [[] fs']; simpl;
        [by apply store_unique_faults|].
      eapply (store_unique_insert (mkRedis (kv r) fs)); [done|exact Hm|].
      simpl. apply add_item_unique. apply NoDup_nil_2.
  - (* remove *)
    unfold removeFromCartHandler, bind, rdb_Get, rdb_Set.
    destruct (pop_fault (faults r)) as [[] fs]; simpl;
      [by apply store_unique_faults|].
    destruct (kv r !! cart_key u) as [data|] eqn:Hk; simpl;
      [|by apply store_unique_faults].
    destruct (Unmarshal data) as [c|] eqn:Hu; simpl;
      [|by apply store_unique_faults].
    destruct (Marshal _) as [data'|] eqn:Hm; simpl;
      [|by apply store_unique_faults].
    destruct (pop_fault fs) as [[] fs']; simpl;
      [by apply store_unique_faults|].
    eapply (store_unique_insert (mkRedis (kv r) fs)); [done|exact Hm|].
    simpl. apply remove_loop_unique. by eapply Hr.
  - (* clear *)
    unfold clearCartHandler, bind, rdb_Del.
    destruct (pop_fault (faults r)) as [[] fs]; simpl;
      [by apply store_unique_faults|].
    intros key data c. simpl.
    destruct (decide (cart_key u = key)) as [<-|Hne].
    + by rewrite lookup_delete_eq.
    + rewrite lookup_delete_ne by done. apply Hr.
Qed.

(** *** Claims on the cart service *)

(** C3 (amended): on a store that answers, for a cart with at most one
    entry per product id, [add] answers 201 with the cart in which the
    entry of the item's product id has its quantity incremented by the
    item's quantity in Go's [int] arithmetic (wrapping around), or to which
    the item is appended when there is no such entry, and that cart is what
    the store then holds.  Two adds of one product id on an empty cart
    leave exactly one entry, of quantity [int_add qty1 qty2], which is
    [qty1 + qty2] whenever that sum fits in an [int]. *)
Theorem add_increments_or_appends r u c it :
  healthy 2 (faults r) = true ->
  load r u = Some c ->
  unique_products (Items c) ->
  let '(resp, r1) := addToCartHandler u (Some it) r in
  let cart1 := mkCart (UserID c) (spec_add int_add (Items c) it) in
  resp = mkResponse StatusCreated (JSONBody cart1) /\
  load r1 u = Some cart1 /\
  forall it2,
    Items c = [] ->
    ProductID it2 = ProductID it ->
    healthy 2 (faults r1) = true ->
    let '(resp2, r2) := addToCartHandler u (Some it2) r1 in
    let cart2 :=
      mkCart (UserID c)
        [mkCartItem (ProductID it) (int_add (Quantity it) (Quantity it2))] in
    resp2 = mkResponse StatusCreated (JSONBody cart2) /\
    load r2 u = Some cart2 /\
    (in_int (Quantity it + Quantity it2) ->
     Items cart2 = [mkCartItem (ProductID it) (Quantity it + Quantity it2)]).
Proof.
  intros Hh Hl Hu.
  destruct (addToCartHandler_healthy r u c it Hh Hl) as (data & Hm & Hadd).
  rewrite Hadd. rewrite (add_item_spec _ _ Hu) in Hm |- *.
  split; [done|]. split; [by apply load_insert|].
  intros it2 Hempty Hpid Hh2.
  set (r1 := mkRedis _ _) in *.
  set (cart1 := mkCart _ _) in *.
  assert (load r1 u = Some cart1) as Hl1 by by apply load_insert.
  destruct (addToCartHandler_healthy r1 u cart1 it2 Hh2 Hl1)
    as (data2 & Hm2 & Hadd2).
  rewrite Hadd2.
  assert (add_item (Items cart1) it2 =
          [mkCartItem (ProductID it) (int_add (Quantity it) (Quantity it2))])
    as Hitems.
  { unfold cart1. simpl. rewrite Hempty. unfold spec_add, add_item. simpl.
    rewrite decide_True by done. done. }
  rewrite Hitems in Hm2 |- *. simpl in *.
  split; [done|]. split; [by apply load_insert|].
  intros Hin. unfold int_add. by rewrite wrap_in_range.
Qed.

(** C4: every store the service reaches from the empty one, by any
    sequence of get, add, remove and clear requests and under any faults of
    the store, holds only carts with at most one entry per product id, and
    so does every cart that [get] returns there. *)
Theorem reachable_carts_unique r :
  reachable r ->
  store_unique r /\
  forall u c,
    body (getCartHandler u r).1 = JSONBody c -> unique_products (Items c).
Proof.
  intros Hreach.
  assert (store_unique r) as Hr.
  { induction Hreach as [fs|r op _ IH].
    - intros key data c. simpl. by rewrite lookup_empty.
    - by apply serve_unique. }
  split; [done|]. intros u c.
  unfold getCartHandler, bind, rdb_Get.
  destruct (pop_fault (faults r)) as [[] fs]; simpl; [done|].
  destruct (kv r !! cart_key u) as [data|] eqn:Hk; simpl.
  - destruct (Unmarshal data) as [c'|] eqn:Hu; simpl; [|done].
    intros [= <-]. by eapply Hr.
  - intros [= <-]. apply NoDup_nil_2.
Qed.

(** C6: on a store that answers, [remove] answers 404 "Cart not found"
    and leaves the store as it is when no value is stored for the user;
    when a cart is stored it drops every entry of that product id, whatever
    its quantity, keeps the others, writes the cart back, and a [get] that
    follows returns that cart, which has no entry of the product id. *)
Theorem remove_drops_product r u pid :
  healthy 3 (faults r) = true ->
  match kv r !! cart_key u with
  | None =>
      removeFromCartHandler u (Some pid) r =
        (error StatusNotFound "Cart not found",
         mkRedis (kv r) (drop 1 (faults r)))
  | Some data =>
      forall c, Unmarshal data = Some c ->
        let '(resp, r1) := removeFromCartHandler u (Some pid) r in
        let cart1 :=
          mkCart (UserID c) (filter (fun it => ProductID it <> pid) (Items c)) in
        resp = mkResponse StatusOK (JSONBody cart1) /\
        (exists data1, Marshal cart1 = Some data1 /\
                       kv r1 = <[cart_key u := data1]> (kv r)) /\
        (getCartHandler u r1).1 = mkResponse StatusOK (JSONBody cart1) /\
        forall it, it ∈ Items cart1 -> ProductID it <> pid
  end.
Proof.
  intros Hh. destruct (kv r !! cart_key u) as [data|] eqn:Hk.
  - intros c Hu.
    assert (healthy 2 (faults r) = true) as Hh2.
    { unfold healthy in *. destruct (faults r) as [|? [|? [|? ?]]];
        simpl in *; try done. rewrite !andb_true_iff in Hh |- *. tauto. }
    destruct (removeFromCartHandler_healthy r u pid data c Hh2 Hk Hu)
      as (data1 & Hm & Hrem).
    rewrite Hrem. rewrite remove_loop_filter in Hm |- *.
    split; [done|]. split; [by exists data1|]. split.
    + rewrite getCartHandler_healthy.
      * simpl. by erewrite load_insert.
      * simpl. by apply (healthy_drop 2 1).
    + simpl. intros it [Hne _]%list_elem_of_filter. done.
  - destruct (rdb_Get_healthy 2 r (cart_key u) Hh) as [Hg _].
    unfold removeFromCartHandler, bind. by rewrite Hg, Hk.
Qed.

(** C7: on a store that answers, [clear] succeeds whatever is stored for
    the user, nothing included, and a [get] that follows returns the empty
    cart of that user. *)
Theorem clear_then_get_empty r u :
  healthy 2 (faults r) = true ->
  let '(resp, r1) := clearCartHandler u r in
  resp = mkResponse StatusOK (MessageBody "Cart cleared successfully") /\
  kv r1 !! cart_key u = None /\
  (getCartHandler u r1).1 = mkResponse StatusOK (JSONBody (mkCart u [])).
Proof.
  intros Hh. destruct (rdb_Del_healthy 1 r (cart_key u) Hh) as [Hd Hh1].
  unfold clearCartHandler, bind. rewrite Hd. simpl.
  split; [done|]. split; [apply lookup_delete_eq|].
  rewrite getCartHandler_healthy by done.
  unfold load. simpl. by rewrite lookup_delete_eq.
Qed.

End CartTheory.

Section CartExamples.
Import CartService.

(** C3, as stated, fails where the sum of the quantities leaves the range
    of [int]: after adding product 7 with quantity [maxInt] and then with
    quantity 1 to an empty cart, the single entry has quantity [minInt],
    not [maxInt + 1]. *)
Lemma add_twice_overflows :
  let item1 := mkCartItem 7 maxInt in
  let item2 := mkCartItem 7 1 in
  let r1 := (addToCartHandler "u1" (Some item1) empty_store).2 in
  let r2 := (addToCartHandler "u1" (Some item2) r1).2 in
  in_int (Quantity item1) /\ in_int (Quantity item2) /\
  (getCartHandler "u1" r2).1 =
    mkResponse StatusOK (JSONBody (mkCart "u1" [mkCartItem 7 minInt])) /\
  (getCartHandler "u1" r2).1 <>
    mkResponse StatusOK
      (JSONBody (mkCart "u1" [mkCartItem 7 (Quantity item1 + Quantity item2)])).
Proof.
  vm_compute. repeat split; try discriminate.
Qed.

(** Adding 4 units of product 3 to the cart of "u1", which has 1. *)
Lemma add_increments_or_appends_witness :
  (addToCartHandler "u1" (Some (mkCartItem 3 4)) u1_store).1 =
    mkResponse StatusCreated
      (JSONBody (mkCart "u1" [mkCartItem 1 2; mkCartItem 3 5])).
Proof.
  assert (unique_products [mkCartItem 1 2; mkCartItem 3 1]) as Hu.
  { unfold unique_products. apply (bool_decide_unpack _). reflexivity. }
  pose proof (add_increments_or_appends u1_store "u1"
                (mkCart "u1" [mkCartItem 1 2; mkCartItem 3 1])
                (mkCartItem 3 4) eq_refl eq_refl Hu) as Hw.
  destruct (addToCartHandler "u1" (Some (mkCartItem 3 4)) u1_store)
    as [resp r1].
  destruct Hw as [-> _]. reflexivity.
Defined.

(** The store after two adds of product 1 for "u1". *)
Lemma reachable_carts_unique_witness :
  let r1 := (serve (OpAdd "u1" (Some (mkCartItem 1 2))) empty_store).2 in
  let r2 := (serve (OpAdd "u1" (Some (mkCartItem 1 5))) r1).2 in
  store_unique r2 /\
  (getCartHandler "u1" r2).1 =
    mkResponse StatusOK (JSONBody (mkCart "u1" [mkCartItem 1 7])).
Proof.
  intros r1 r2. split; [|reflexivity].
  apply reachable_carts_unique.
  apply reach_serve, reach_serve, reach_empty.
Defined.

(** Removing product 3 from the cart of "u1". *)
Lemma remove_drops_product_witness :
  (removeFromCartHandler "u1" (Some 3) u1_store).1 =
    mkResponse StatusOK (JSONBody (mkCart "u1" [mkCartItem 1 2])).
Proof.
  pose proof (remove_drops_product u1_store "u1" 3 eq_refl) as Hw.
  assert (kv u1_store !! cart_key "u1" =
          Some (mkCart "u1" [mkCartItem 1 2; mkCartItem 3 1])) as Hk
    by reflexivity.
  rewrite Hk in Hw. specialize (Hw _ eq_refl).
  destruct (removeFromCartHandler "u1" (Some 3) u1_store) as [resp r1].
  destruct Hw as [-> _]. reflexivity.
Defined.

(** Clearing the cart of "u1", then reading it.  A user never seen reads
    the same. *)
Lemma clear_then_get_empty_witness :
  let r1 := (clearCartHandler "u1" u1_store).2 in
  (getCartHandler "u1" r1).1 = mkResponse StatusOK (JSONBody (mkCart "u1" [])).
Proof.
  intros r1. subst r1.
  pose proof (clear_then_get_empty u1_store "u1" eq_refl) as Hw.
  destruct (clearCartHandler "u1" u1_store) as [resp r1].
  destruct Hw as (_ & _ & Hget). exact Hget.
Defined.

Example get_of_new_user :
  (getCartHandler "newuser" empty_store).1 =
    mkResponse StatusOK (JSONBody (mkCart "newuser" [])).
Proof. reflexivity. Qed.

Example remove_without_cart :
  (removeFromCartHandler "newuser" (Some 1) empty_store).1 =
    error StatusNotFound "Cart not found".
Proof. reflexivity. Qed.

Example add_when_store_is_down :
  addToCartHandler "u1" (Some (mkCartItem 1 1)) (mkRedis (kv u1_store) [true]) =
    (error StatusInternalServerError "Failed to retrieve cart",
     mkRedis (kv u1_store) []).
Proof. reflexivity. Qed.

End CartExamples.

(** ** Product service *)

Section ProductTheory.
Import ProductService.

Lemma find_product_Some ps id p :
  find_product ps id = Some p -> p ∈ ps /\ ID p = id.
Proof.
  induction ps as [|q qs IH]; simpl; [done|].
  case_decide as Hq.
  - intros [= <-]. split; [apply list_elem_of_here|done].
  - intros [Hin Hid]%IH. split; [by apply list_elem_of_further|done].
Qed.

Lemma find_product_None ps id :
  find_product ps id = None -> forall p, p ∈ ps -> ID p <> id.
Proof.
  induction ps as [|q qs IH]; simpl.
  - intros _ p Hp. by apply elem_of_nil in Hp.
  - case_decide as Hq; [done|]. intros Hn p [->|Hp]%elem_of_cons; [done|].
    by apply IH.
Qed.

Lemma Atoi_numeric s :
  Atoi s =
    if numeric s && bool_decide (in_int (numeral_value s))
    then Some (numeral_value s) else None.
Proof.
  unfold Atoi, numeric, numeral_value, in_int.
  destruct (split_sign s) as [neg digits].
  destruct digits as [|a rest]; [done|].
  destruct (all_digits (String a rest)); [|done]. simpl.
  set (v := if neg then _ else _).
  replace (if neg then - digits_value rest (0 * 10 + digit_value a)
           else digits_value rest (0 * 10 + digit_value a)) with v
    by (by destruct neg).
  destruct (decide (minInt <= v <= maxInt)) as [Hv|Hv].
  - rewrite bool_decide_eq_true_2 by done.
    destruct Hv as [Hlo%Z.leb_le Hhi%Z.leb_le]. by rewrite Hlo, Hhi.
  - rewrite bool_decide_eq_false_2 by done.
    destruct (minInt <=? v) eqn:Hlo, (v <=? maxInt) eqn:Hhi; simpl; try done.
    apply Z.leb_le in Hlo, Hhi. lia.
Qed.

Lemma products_ids_distinct p q :
  p ∈ products -> q ∈ products -> ID p = ID q -> p = q.
Proof.
  unfold products. rewrite !elem_of_cons, !elem_of_nil.
  intros Hp Hq; destruct_or!; subst; simpl; done.
Qed.

(** C9 (amended): [getByID] answers 400 when the id is not a decimal
    numeral or denotes an integer outside the range of [int]; for a numeral
    in range it answers 200 with the catalog product of that id when there
    is one, and 404 "Product not found" otherwise; it has no other
    outcome. *)
Theorem product_lookup_outcomes (idVar : string) :
  let resp := getProductByIDHandler idVar in
  let id := numeral_value idVar in
  (numeric idVar = false \/ ~ in_int id ->
   resp = error StatusBadRequest "Invalid product ID") /\
  (numeric idVar = true -> in_int id ->
   forall p, p ∈ products -> ID p = id ->
     resp = mkResponse StatusOK (JSONBody p)) /\
  (numeric idVar = true -> in_int id ->
   (forall p, p ∈ products -> ID p <> id) ->
   resp = error StatusNotFound "Product not found") /\
  (status resp = StatusOK \/ status resp = StatusBadRequest \/
   status resp = StatusNotFound).
Proof.
  intros resp id. subst resp. unfold getProductByIDHandler.
  rewrite Atoi_numeric. fold id.
  destruct (numeric idVar) eqn:Hnum; cbn [andb].
  2: { repeat split; try done. tauto. }
  destruct (decide (in_int id)) as [Hin|Hout].
  - rewrite bool_decide_eq_true_2 by done.
    destruct (find_product products id) as [q|] eqn:Hf.
    + apply find_product_Some in Hf as [Hq Hid].
      repeat split; try tauto.
      * intros [?|?]; done.
      * intros _ _ p Hp Hpid. f_equal. f_equal.
        apply products_ids_distinct; congruence.
      * intros _ _ Hno. by destruct (Hno q Hq).
    + pose proof (find_product_None _ _ Hf) as Hno.
      repeat split; try tauto.
      * intros [?|?]; done.
      * intros _ _ p Hp Hpid. by destruct (Hno p Hp).
  - rewrite bool_decide_eq_false_2 by done.
    repeat split; try tauto; done.
Qed.

End ProductTheory.

Section ProductExamples.
Import ProductService.

(** C9, as stated, fails on a numeral too large for an [int]: the id
    "99999999999999999999" is numeric and is the id of no product, and the
    answer is 400, not 404. *)
Lemma huge_product_id_is_bad_request :
  let idVar := "99999999999999999999" in
  numeric idVar = true /\
  (forall p, p ∈ products -> ID p <> numeral_value idVar) /\
  getProductByIDHandler idVar = error StatusBadRequest "Invalid product ID" /\
  getProductByIDHandler idVar <> error StatusNotFound "Product not found".
Proof.
  split; [reflexivity|]. split; [|split; [reflexivity|discriminate]].
  intros p. unfold products. rewrite !elem_of_cons, elem_of_nil.
  intros Hp; destruct_or!; subst; done.
Qed.

(** The three outcomes, on the ids "3", "42" and "abc". *)
Lemma product_lookup_outcomes_witness :
  getProductByIDHandler "3" =
    mkResponse StatusOK
      (JSONBody (mkProduct 3 "Keyboard" "Mechanical keyboard"
                   (f64 5628795846771343 (-46)) 30)) /\
  getProductByIDHandler "42" = error StatusNotFound "Product not found" /\
  getProductByIDHandler "abc" = error StatusBadRequest "Invalid product ID".
Proof.
  split; [|split].
  - apply (product_lookup_outcomes "3"); [reflexivity|by vm_compute| |reflexivity].
    unfold products. rewrite !elem_of_cons. tauto.
  - apply (product_lookup_outcomes "42"); [reflexivity|by vm_compute|].
    intros p. unfold products. rewrite !elem_of_cons, elem_of_nil.
    intros Hp; destruct_or!; subst; done.
  - apply (product_lookup_outcomes "abc"). by left.
Defined.

Example Atoi_signed : Atoi "-17" = Some (-17) /\ Atoi "+5" = Some 5.
Proof. split; reflexivity. Qed.

Example Atoi_syntax :
  Atoi "" = None /\ Atoi "-" = None /\ Atoi "1_000" = None /\ Atoi "12a" = None.
Proof. repeat split; reflexivity. Qed.

Example Atoi_range :
  Atoi "9223372036854775807" = Some maxInt /\
  Atoi "9223372036854775808" = None /\
  Atoi "-9223372036854775808" = Some minInt.
Proof. repeat split; reflexivity. Qed.

End ProductExamples.

(** ** Order service *)

Section OrderTheory.
Import OrderService.
Implicit Types (db : DB) (items : list OrderItem) (t : Tables).

Open Scope state_scope.

Lemma call_ok stmt db fs :
  faults db = false :: fs ->
  call stmt db =
    (true, mkDB (committed db) (tx db) (orders_id_seq db)
                (order_items_id_seq db) (clock db) fs
                (log db ++ [(stmt, true)])).
Proof. intros Hf. unfold call. by rewrite Hf. Qed.

Lemma call_fail stmt db fs :
  faults db = true :: fs ->
  call stmt db =
    (false, mkDB (committed db) (tx db) (orders_id_seq db)
                 (order_items_id_seq db) (clock db) fs
                 (log db ++ [(stmt, false)])).
Proof. intros Hf. unfold call. by rewrite Hf. Qed.

Lemma call_healthy n stmt db :
  healthy (S n) (faults db) = true ->
  call stmt db =
    (true, mkDB (committed db) (tx db) (orders_id_seq db)
                (order_items_id_seq db) (clock db) (drop 1 (faults db))
                (log db ++ [(stmt, true)])) /\
  healthy n (drop 1 (faults db)) = true.
Proof.
  intros [Hp Hh]%pop_healthy. split; [|done]. unfold call. by rewrite Hp.
Qed.

Lemma call_frame stmt db :
  exists ok fs l,
    call stmt db =
      (ok, mkDB (committed db) (tx db) (orders_id_seq db)
                (order_items_id_seq db) (clock db) fs l).
Proof. unfold call. destruct (pop_fault (faults db)) as [f fs]. eauto. Qed.

(** The loop of inserts when insert number [j] (from 0) is the first to
    fail: the ones before it are done in the transaction, the ones after
    it are not sent. *)
Lemma insert_items_fails orderID items : forall j rest db t,
  (j < length items)%nat ->
  tx db = Some t ->
  faults db = replicate j false ++ true :: rest ->
  exists t',
    insert_items orderID items db =
      (false,
       mkDB (committed db) (Some t') (orders_id_seq db)
            (order_items_id_seq db + Z.of_nat j) (clock db) rest
            (log db ++ map (item_stmt orderID true) (take j items)
                    ++ map (item_stmt orderID false) (take 1 (drop j items)))).
Proof.
  induction items as [|item items IH]; intros j rest db t Hj Ht Hf;
    simpl in Hj; [lia|].
  destruct j as [|j]; simpl in Hf.
  - exists t. simpl. unfold bind, tx_insert_item.
    rewrite (call_fail _ _ _ Hf). simpl. rewrite Ht, Z.add_0_r.
    done.
  - simpl. unfold bind, tx_insert_item.
    rewrite (call_ok _ _ _ Hf). simpl. rewrite Ht.
    edestruct (IH j rest) as [t' ->]; [lia|simpl; done|simpl; done|].
    exists t'. simpl. f_equal. f_equal; [lia|].
    rewrite <- !app_assoc. done.
Qed.

(** The loop of inserts when no insert fails. *)
Lemma insert_items_succeeds orderID items : forall db t,
  tx db = Some t ->
  healthy (length items) (faults db) = true ->
  insert_items orderID items db =
    (true,
     mkDB (committed db)
          (Some (mkTables (orders t)
                   (order_items t
                      ++ imap (item_row orderID (order_items_id_seq db)) items)))
          (orders_id_seq db)
          (order_items_id_seq db + Z.of_nat (length items)) (clock db)
          (drop (length items) (faults db))
          (log db ++ map (item_stmt orderID true) items)).
Proof.
  induction items as [|item items IH]; intros db t Ht Hh; simpl.
  - unfold ret. rewrite drop_0, !app_nil_r, Z.add_0_r.
    destruct db, t; simpl in *. by subst.
  - unfold bind, tx_insert_item.
    destruct (call_healthy _ (InsertItem orderID (ProductID item)
                (Quantity item)) db Hh) as [-> Hh']. simpl. rewrite Ht.
    erewrite IH; [|simpl; done|simpl; done]. simpl.
    f_equal. f_equal.
    + f_equal. f_equal. rewrite <- app_assoc. simpl. f_equal.
      unfold item_row at 2. rewrite Z.add_0_r. f_equal.
      apply imap_ext. intros i x _. unfold item_row. simpl. f_equal. lia.
    + lia.
    + by rewrite drop_drop.
    + by rewrite <- app_assoc.
Qed.

Lemma insert_items_frame orderID items : forall db t,
  tx db = Some t ->
  exists ok t' iseq fs l,
    insert_items orderID items db =
      (ok, mkDB (committed db) (Some t') (orders_id_seq db) iseq (clock db)
                fs l) /\
    orders t' = orders t.
Proof.
  induction items as [|item items IH]; intros db t Ht; simpl.
  - exists true, t, (order_items_id_seq db), (faults db), (log db).
    split; [|done]. unfold ret. destruct db; simpl in *. by subst.
  - unfold bind, tx_insert_item.
    destruct (call_frame (InsertItem orderID (ProductID item) (Quantity item))
                db) as (ok & fs & l & ->).
    destruct ok; simpl; rewrite Ht.
    + edestruct (IH) as (ok & t' & iseq & fs' & l' & -> & Ho);
        [simpl; done|]. simpl in *. by exists ok, t', iseq, fs', l'.
    + by exists false, t, (order_items_id_seq db), fs, l.
Qed.

Lemma valid_request req :
  ReqUserID req <> "" -> ReqItems req <> [] ->
  bool_decide (ReqUserID req = "")
    || bool_decide (length (ReqItems req) = 0%nat) = false.
Proof.
  intros Hu Hi. rewrite bool_decide_eq_false_2 by done.
  rewrite bool_decide_eq_false_2; [done|].
  by destruct (ReqItems req).
Qed.

Lemma invalid_request req :
  ReqUserID req = "" \/ ReqItems req = [] ->
  bool_decide (ReqUserID req = "")
    || bool_decide (length (ReqItems req) = 0%nat) = true.
Proof.
  intros [Hu|Hi].
  - by rewrite bool_decide_eq_true_2.
  - rewrite Hi. simpl. apply orb_true_r.
Qed.

Lemma create_valid_status req now db :
  ReqUserID req <> "" -> ReqItems req <> [] ->
  status (createOrderHandler (Some req) now db).1 = StatusInternalServerError
  \/ status (createOrderHandler (Some req) now db).1 = StatusCreated.
Proof.
  intros Hu Hi. unfold createOrderHandler.
  rewrite (valid_request _ Hu Hi). unfold bind, db_Begin.
  destruct (call Begin db) as [[] db1]; simpl; [|by left].
  destruct (tx_insert_order _ _ _ _) as [[orderID|] db2]; simpl.
  - destruct (insert_items _ _ _) as [[] db3]; simpl.
    + destruct (tx_Commit db3) as [[] db4]; simpl;
        destruct (tx_Rollback db4); simpl; [by right|by left].
    + destruct (tx_Rollback db3); simpl; by left.
  - destruct (tx_Rollback db2); simpl; by left.
Qed.

(** *** What a listing can show *)

Lemma collect_orders_from rows : forall acc db found o,
  (collect_orders rows acc db).1 = Some found ->
  o ∈ found ->
  o ∈ acc \/ exists row, row ∈ rows /\ ID o = row_id row.
Proof.
  induction rows as [|row rows IH]; intros acc db found o; simpl.
  - intros [= <-]. by left.
  - unfold bind at 1.
    destruct (call_frame (ScanOrder (row_id row)) db) as (ok & fs & l & ->).
    destruct ok; simpl; [|done].
    unfold bind at 1. unfold db_Query_items.
    match goal with |- context [call ?s ?d] =>
      destruct (call_frame s d) as (ok & fs' & l' & ->) end.
    destruct ok; simpl.
    + intros Hc Ho. destruct (IH _ _ _ _ Hc Ho) as [Hacc|(row' & Hin & Hid)].
      * apply elem_of_app in Hacc as [Hacc|Hnew]; [by left|].
        apply list_elem_of_singleton in Hnew as ->. right.
        exists row. split; [apply list_elem_of_here|done].
      * right. exists row'. split; [by apply list_elem_of_further|done].
    + intros Hc Ho. destruct (IH _ _ _ _ Hc Ho) as [Hacc|(row' & Hin & Hid)].
      * by left.
      * right. exists row'. split; [by apply list_elem_of_further|done].
Qed.

Lemma orders_of_user_elem t u row :
  row ∈ orders_of_user t u <-> row ∈ orders t /\ row_user_id row = u.
Proof.
  unfold orders_of_user. rewrite merge_sort_Permutation.
  rewrite list_elem_of_filter. tauto.
Qed.

(** Every order of a listing is an order row that is committed. *)
Lemma listed_orders_committed u db found o :
  body (getUserOrdersHandler u db).1 = JSONBody found ->
  o ∈ found ->
  exists row, row ∈ orders (committed db) /\ ID o = row_id row.
Proof.
  unfold getUserOrdersHandler, bind at 1. unfold db_Query_orders.
  destruct (call_frame (SelectOrdersByUser u) db) as (ok & fs & l & ->).
  destruct ok; simpl; [|done].
  unfold bind.
  destruct (collect_orders _ _ _) as [[found'|] db'] eqn:Hc; simpl; [|done].
  intros [= <-] Ho.
  pose proof (collect_orders_from _ _ _ _ o (f_equal fst Hc) Ho)
    as [Hnil|(row & Hin & Hid)].
  - by apply elem_of_nil in Hnil.
  - apply orders_of_user_elem in Hin as [Hin _]. eauto.
Qed.

Lemma collect_orders_frame rows : forall acc db,
  exists res fs l,
    collect_orders rows acc db =
      (res, mkDB (committed db) (tx db) (orders_id_seq db)
                 (order_items_id_seq db) (clock db) fs l).
Proof.
  induction rows as [|row rows IH]; intros acc db; simpl.
  - exists (Some acc), (faults db), (log db). unfold ret. by destruct db.
  - unfold bind at 1.
    destruct (call_frame (ScanOrder (row_id row)) db) as (ok & fs & l & ->).
    destruct ok; simpl; [|by eauto].
    unfold bind at 1. unfold db_Query_items.
    match goal with |- context [call ?s ?d] =>
      destruct (call_frame s d) as (ok & fs' & l' & ->) end.
    destruct ok; simpl.
    + match goal with |- context [collect_orders rows ?a ?d] =>
        destruct (IH a d) as (res & fs2 & l2 & ->) end. simpl. eauto.
    + match goal with |- context [collect_orders rows ?a ?d] =>
        destruct (IH a d) as (res & fs2 & l2 & ->) end. simpl. eauto.
Qed.

Lemma answered_elem {A} (rows : list A) failed x :
  x ∈ answered rows failed <->
  exists i, rows !! i = Some x /\ failed !! i = Some false.
Proof.
  revert failed. induction rows as [|row rows IH]; intros failed; simpl.
  - split; [by intros ?%elem_of_nil|]. by intros (i & ? & _).
  - destruct failed as [|f failed].
    + split; [by intros ?%elem_of_nil|]. by intros (i & _ & ?).
    + destruct f.
      * rewrite IH. split.
        -- intros (i & ? & ?). by exists (S i).
        -- intros ([|i] & ? & ?); simplify_eq/=. by exists i.
      * rewrite elem_of_cons, IH. split.
        -- intros [->|(i & ? & ?)]; [by exists 0%nat|by exists (S i)].
        -- intros ([|i] & ? & ?); simplify_eq/=; [by left|right; by exists i].
Qed.

Lemma collect_orders_answered rows : forall failed acc db rest,
  length failed = length rows ->
  faults db = flat_map (fun f : bool => [false; f]) failed ++ rest ->
  exists l,
    collect_orders rows acc db =
      (Some (acc ++ map (order_with_items (committed db))
                        (answered rows failed)),
       mkDB (committed db) (tx db) (orders_id_seq db) (order_items_id_seq db)
            (clock db) rest l).
Proof.
  induction rows as [|row rows IH]; intros failed acc db rest Hlen Hf.
  - destruct failed; [|done]. simpl in *. unfold ret.
    rewrite app_nil_r. exists (log db). destruct db; simpl in *. by subst.
  - destruct failed as [|f failed]; [done|]. simpl in Hlen, Hf.
    simpl. unfold bind at 1. rewrite (call_ok _ _ _ Hf). simpl.
    unfold bind at 1. unfold db_Query_items.
    destruct f.
    + erewrite call_fail; [|simpl; done]. simpl.
      edestruct (IH failed acc) as [l ->]; [lia|simpl; done|]. simpl. eauto.
    + erewrite call_ok; [|simpl; done]. simpl.
      edestruct (IH failed) as [l ->]; [lia|simpl; done|]. simpl.
      rewrite <- app_assoc. simpl. eauto.
Qed.

Lemma orders_of_user_ids_distinct t u :
  NoDup (map row_id (orders t)) -> NoDup (map row_id (orders_of_user t u)).
Proof.
  intros Hnd. unfold orders_of_user. rewrite merge_sort_Permutation.
  eapply sublist_NoDup; [exact Hnd|].
  apply fmap_sublist, sublist_filter.
Qed.

(** *** The stores the service reaches *)

Lemma wf_same_tables db db' :
  db_wf db ->
  committed db' = committed db -> tx db' = None ->
  orders_id_seq db <= orders_id_seq db' ->
  db_wf db'.
Proof.
  intros (Hseq & _ & Hnd & Hids) Hc Ht Hle. unfold db_wf. rewrite Hc.
  split; [lia|]. split; [done|]. split; [done|].
  intros row Hin. apply Hids in Hin. lia.
Qed.

Lemma createOrderHandler_wf decoded now db :
  db_wf db -> db_wf (createOrderHandler decoded now db).2.
Proof.
  intros Hwf. destruct decoded as [req|]; [|done]. unfold createOrderHandler.
  destruct (_ || _); [done|].
  unfold bind at 1. unfold db_Begin.
  destruct (call_frame Begin db) as (ok & fs & l & ->).
  destruct ok; simpl; [|by destruct Hwf as (? & ? & ?); eapply wf_same_tables].
  unfold bind at 1. unfold bind at 1. unfold tx_insert_order.
  match goal with |- context [call ?s ?d] =>
    destruct (call_frame s d) as (ok & fs1 & l1 & ->) end.
  destruct ok; simpl; [|by eapply wf_same_tables].
  unfold bind at 1.
  match goal with |- context [insert_items ?o ?i ?d] =>
    edestruct (insert_items_frame o i d) as (ok & t' & iseq & fs2 & l2 & -> & Ho);
      [simpl; done|] end.
  simpl in Ho. destruct ok; simpl; [|eapply wf_same_tables; simpl; done || lia].
  unfold bind at 1. unfold tx_Commit.
  match goal with |- context [call ?s ?d] =>
    destruct (call_frame s d) as (ok & fs3 & l3 & ->) end.
  destruct ok; simpl; [|eapply wf_same_tables; simpl; done || lia].
  destruct Hwf as (Hseq & _ & Hnd & Hids). unfold db_wf. simpl.
  rewrite Ho. split; [lia|]. split; [done|]. split.
  - rewrite map_app. simpl. apply NoDup_app. split; [done|].
    split; [|apply NoDup_singleton].
    intros id (row & Hid & Hin)%list_elem_of_fmap Hnew%list_elem_of_singleton.
    apply Hids in Hin. lia.
  - intros row [Hin|Hnew]%elem_of_app.
    + apply Hids in Hin. lia.
    + apply list_elem_of_singleton in Hnew as ->. simpl. lia.
Qed.

Lemma getUserOrdersHandler_wf u db :
  db_wf db -> db_wf (getUserOrdersHandler u db).2.
Proof.
  intros Hwf. unfold getUserOrdersHandler, bind at 1. unfold db_Query_orders.
  destruct (call_frame (SelectOrdersByUser u) db) as (ok & fs & l & ->).
  destruct Hwf as (? & ? & ? & ?).
  destruct ok; simpl; [|by eapply wf_same_tables].
  unfold bind.
  match goal with |- context [collect_orders ?r ?a ?d] =>
    destruct (collect_orders_frame r a d) as (res & fs2 & l2 & ->) end.
  destruct res; simpl; by eapply wf_same_tables.
Qed.

Lemma getOrderDetailHandler_wf int4in orderID db :
  db_wf db -> db_wf (getOrderDetailHandler int4in orderID db).2.
Proof.
  intros Hwf. unfold getOrderDetailHandler, bind at 1.
  unfold db_QueryRow_order.
  destruct (call_frame (SelectOrder orderID) db) as (ok & fs & l & ->).
  destruct Hwf as (? & ? & ? & ?).
  destruct ok; simpl; [|by eapply wf_same_tables].
  destruct (int4in orderID) as [id|]; simpl; [|by eapply wf_same_tables].
  destruct (filter _ _) as [|row ?]; simpl; [by eapply wf_same_tables|].
  unfold bind, db_Query_items.
  match goal with |- context [call ?s ?d] =>
    destruct (call_frame s d) as (ok & fs' & l' & ->) end.
  destruct ok; simpl; by eapply wf_same_tables.
Qed.

(** Every store the service reaches is well formed. *)
Lemma reachable_wf int4in db : reachable int4in db -> db_wf db.
Proof.
  induction 1 as [c fs|db op _ IH|db c _ IH _].
  - unfold db_wf, db_init. simpl.
    split; [done|]. split; [done|]. split; [apply NoDup_nil_2|].
    by intros row ?%elem_of_nil.
  - destruct op; simpl.
    + by apply createOrderHandler_wf.
    + by apply getUserOrdersHandler_wf.
    + by apply getOrderDetailHandler_wf.
  - destruct IH as (? & ? & ? & ?). by eapply wf_same_tables.
Qed.

(** *** Claims on the order service *)

(** C1: for a request with a user id and at least one item, on a store
    the service has reached, when the transaction begins and then, after
    [j] inserts that succeed, an insert fails (the insert of the order for
    [j = 0], of item [j] otherwise), the caller gets a 500, what is
    committed is what was committed before, no transaction stays open, and
    the store has received the inserts up to the failing one followed by
    the rollback and none of the items after it; a listing that follows
    shows no order with the id the store had assigned. *)
Theorem create_order_rolls_back int4in req now db j rest :
  reachable int4in db ->
  ReqUserID req <> "" ->
  ReqItems req <> [] ->
  (j <= length (ReqItems req))%nat ->
  faults db = false :: replicate j false ++ true :: rest ->
  let '(resp, db') := createOrderHandler (Some req) now db in
  let id := orders_id_seq db in
  let insert := InsertOrder (ReqUserID req) (ReqTotal req) "pending" in
  resp = error StatusInternalServerError
           (if decide (j = 0%nat) then "Failed to create order"
            else "Failed to create order items") /\
  committed db' = committed db /\
  tx db' = None /\
  log db' =
    log db ++ [(Begin, true)]
      ++ match j with
         | O => [(insert, false)]
         | S k =>
             (insert, true)
               :: map (item_stmt id true) (take k (ReqItems req))
               ++ map (item_stmt id false) (take 1 (drop k (ReqItems req)))
         end
      ++ [(Rollback, true)] /\
  faults db' = rest /\
  (forall u found o,
     body (getUserOrdersHandler u db').1 = JSONBody found ->
     o ∈ found -> ID o <> id).
Proof.
  intros Hreach Hu Hi Hj Hf. unfold createOrderHandler.
  destruct (reachable_wf _ _ Hreach) as (_ & _ & _ & Hids).
  rewrite (valid_request _ Hu Hi).
  unfold bind at 1. unfold db_Begin. rewrite (call_ok _ _ _ Hf). simpl.
  unfold bind at 1. unfold bind at 1. unfold tx_insert_order.
  assert (forall db', committed db' = committed db ->
            forall u found o,
              body (getUserOrdersHandler u db').1 = JSONBody found ->
              o ∈ found -> ID o <> orders_id_seq db) as Hlist.
  { intros db' Hc u found o Hb Ho.
    destruct (listed_orders_committed _ _ _ _ Hb Ho) as (row & Hin & ->).
    rewrite Hc in Hin. apply Hids in Hin. lia. }
  destruct j as [|k]; simpl in Hf |- *.
  - rewrite <- !app_assoc. repeat split; try done. by apply Hlist.
  - unfold bind at 1.
    edestruct (insert_items_fails (orders_id_seq db) (ReqItems req) k rest)
      as [t' ->]; [lia|simpl; done|simpl; done|].
    simpl. rewrite <- !app_assoc. simpl.
    repeat split; try done. by apply Hlist.
Qed.

(** C2 (amended): in [listByUser], when the query of the orders and the
    scans of its rows succeed, the request succeeds whichever of the items
    queries fail; the answer has, in the order of the rows, the orders
    whose items query succeeded, each with its items, and an order whose
    items query failed is left out of it. *)
Theorem list_leaves_out_failed_orders u db failed rest :
  length failed = length (orders_of_user (committed db) u) ->
  faults db = false :: flat_map (fun f : bool => [false; f]) failed ++ rest ->
  let rows := orders_of_user (committed db) u in
  let found := map (order_with_items (committed db)) (answered rows failed) in
  (getUserOrdersHandler u db).1 = mkResponse StatusOK (JSONBody found) /\
  (forall i row,
     rows !! i = Some row -> failed !! i = Some false ->
     order_with_items (committed db) row ∈ found) /\
  (NoDup (map row_id (orders (committed db))) ->
   forall i row,
     rows !! i = Some row -> failed !! i = Some true ->
     forall o, o ∈ found -> ID o <> row_id row).
Proof.
  intros Hlen Hf rows found. split; [|split].
  - unfold getUserOrdersHandler, bind at 1. unfold db_Query_orders.
    rewrite (call_ok _ _ _ Hf). simpl. unfold bind.
    edestruct (collect_orders_answered rows failed []) as [l ->];
      [exact Hlen|simpl; done|]. done.
  - intros i row Hrow Hfail. apply list_elem_of_fmap. exists row.
    split; [done|]. apply answered_elem. eauto.
  - intros Hnd i row Hrow Hfail o Ho.
    apply list_elem_of_fmap in Ho as (row' & -> & Hin).
    apply answered_elem in Hin as (i' & Hrow' & Hok).
    simpl. intros Hid.
    pose proof (orders_of_user_ids_distinct (committed db) u Hnd) as Hrows.
    assert (i' = i) as ->.
    { eapply (NoDup_lookup _ _ _ (row_id row) Hrows);
        rewrite list_lookup_fmap.
      - fold rows. by rewrite Hrow', <- Hid.
      - fold rows. by rewrite Hrow. }
    congruence.
Qed.

(** C5: a request whose body decodes is answered 400 "User ID and items
    are required" exactly when its user id is the empty string or it has
    no item, and the store is then not touched; it gets no other 400, so
    neither the total nor the fields of the items are checked: requests
    that agree on the user id and on having items are rejected alike. *)
Theorem create_order_validation req now db :
  let '(resp, db') := createOrderHandler (Some req) now db in
  (resp = error StatusBadRequest "User ID and items are required"
   <-> ReqUserID req = "" \/ ReqItems req = []) /\
  (status resp = StatusBadRequest
   <-> ReqUserID req = "" \/ ReqItems req = []) /\
  (ReqUserID req = "" \/ ReqItems req = [] -> db' = db) /\
  (forall req2 now2 db2,
     ReqUserID req2 = ReqUserID req ->
     (ReqItems req2 = [] <-> ReqItems req = []) ->
     (status (createOrderHandler (Some req2) now2 db2).1 = StatusBadRequest
      <-> status resp = StatusBadRequest)).
Proof.
  assert (forall r n d,
            status (createOrderHandler (Some r) n d).1 = StatusBadRequest
            <-> ReqUserID r = "" \/ ReqItems r = []) as Hstatus.
  { intros r n d.
    destruct (decide (ReqUserID r = "" \/ ReqItems r = [])) as [Hbad|Hok].
    - unfold createOrderHandler. rewrite (invalid_request _ Hbad). done.
    - assert (ReqUserID r <> "" /\ ReqItems r <> []) as [Hu Hi] by tauto.
      pose proof (create_valid_status r n d Hu Hi) as Hs.
      split; [|tauto]. intros H400. rewrite H400 in Hs.
      by destruct Hs. }
  pose proof (Hstatus req now db) as Hreq.
  destruct (createOrderHandler (Some req) now db) as [resp db'] eqn:Hrun.
  simpl in Hreq. split; [|split; [done|split]].
  - split.
    + intros ->. by apply Hreq.
    + intros Hbad. unfold createOrderHandler in Hrun.
      rewrite (invalid_request _ Hbad) in Hrun. by injection Hrun as <- _.
  - intros Hbad. unfold createOrderHandler in Hrun.
    rewrite (invalid_request _ Hbad) in Hrun. by injection Hrun as _ <-.
  - intros req2 now2 db2 Hsame Hitems. rewrite Hstatus, Hreq, Hsame. tauto.
Qed.

(** C8: for a request with a user id and at least one item, on a store
    the service has reached and whose calls all succeed, the answer is 201
    with the order of the id the store assigned, which is greater than 0,
    the user id and total of the request, the status "pending" and the
    items of the request in their order; the order and its items are then
    committed. *)
Theorem create_order_succeeds int4in req now db :
  reachable int4in db ->
  ReqUserID req <> "" ->
  ReqItems req <> [] ->
  healthy (length (ReqItems req) + 3) (faults db) = true ->
  let '(resp, db') := createOrderHandler (Some req) now db in
  let id := orders_id_seq db in
  resp = mkResponse StatusCreated
           (JSONBody (mkOrder id (ReqUserID req) (ReqItems req) (ReqTotal req)
                              "pending" now)) /\
  0 < id /\
  committed db' =
    mkTables
      (orders (committed db)
         ++ [mkOrderRow id (ReqUserID req) (ReqTotal req) "pending" (clock db)])
      (order_items (committed db)
         ++ imap (item_row id (order_items_id_seq db)) (ReqItems req)) /\
  tx db' = None.
Proof.
  intros Hreach Hu Hi Hh. unfold createOrderHandler.
  destruct (reachable_wf _ _ Hreach) as (Hseq & _).
  rewrite (valid_request _ Hu Hi).
  replace (length (ReqItems req) + 3)%nat
    with (S (S (length (ReqItems req) + 1))) in Hh by lia.
  unfold bind at 1. unfold db_Begin.
  destruct (call_healthy _ Begin db Hh) as [-> Hh1]. simpl.
  unfold bind at 1. unfold bind at 1. unfold tx_insert_order.
  match goal with |- context [call ?s ?d] =>
    destruct (call_healthy _ s d Hh1) as [-> Hh2] end.
  simpl. unfold bind at 1.
  apply (healthy_drop_le (length (ReqItems req))) in Hh2 as Hh3; [|lia].
  erewrite insert_items_succeeds; [|simpl; done|simpl; exact Hh3].
  simpl. unfold bind at 1. unfold tx_Commit.
  match goal with |- context [call ?s ?d] =>
    assert (healthy 1 (faults d) = true) as Hh4 end.
  { simpl. apply (healthy_drop (length (ReqItems req)) 1). exact Hh2. }
  match goal with |- context [call ?s ?d] =>
    destruct (call_healthy _ s d Hh4) as [-> _] end.
  simpl. done.
Qed.

(** C10: an order id that the store does not take for an integer makes
    [getDetail] answer 500: the handler hands the path segment to the query
    as it is, and the error of the store is not [sql.ErrNoRows]; the answer
    is neither a 400 nor a 404. *)
Theorem detail_of_rejected_id_is_internal int4in orderID db :
  int4in orderID = None ->
  let '(resp, db') := getOrderDetailHandler int4in orderID db in
  resp = error StatusInternalServerError "Failed to retrieve order" /\
  status resp <> StatusBadRequest /\
  status resp <> StatusNotFound /\
  (exists ok, log db' = log db ++ [(SelectOrder orderID, ok)]) /\
  committed db' = committed db.
Proof.
  intros Hrej. unfold getOrderDetailHandler, bind, db_QueryRow_order, call.
  destruct (pop_fault (faults db)) as [[] fs]; simpl.
  - repeat split; try done. by exists false.
  - rewrite Hrej. simpl. repeat split; try done. by exists true.
Qed.

End OrderTheory.


Section OrderExamples.
Import OrderService.

(** C2, as stated, fails: after the order of [u1_request] is created, a
    listing for "u1" whose items query fails answers 200 with no order at
    all, not with the order and an empty list of items. *)
Lemma listing_drops_order_when_items_fail :
  let db0 := db_init 1000 [false; false; false; false; false; false; true] in
  let '(created, db1) := createOrderHandler (Some u1_request) 1001 db0 in
  let listed := (getUserOrdersHandler "u1" db1).1 in
  created =
    mkResponse StatusCreated
      (JSONBody (mkOrder 1 "u1" (ReqItems u1_request) (ReqTotal u1_request)
                         "pending" 1001)) /\
  listed = mkResponse StatusOK (JSONBody []) /\
  listed <>
    mkResponse StatusOK
      (JSONBody [mkOrder 1 "u1" [] (ReqTotal u1_request) "pending" 1000]).
Proof.
  vm_compute. repeat split; discriminate.
Qed.

(** A request of two items whose first item insert fails. *)
Lemma create_order_rolls_back_witness :
  let db := db_init 1000 [false; false; true] in
  let '(resp, db') := createOrderHandler (Some u1_request2) 1001 db in
  resp = error StatusInternalServerError "Failed to create order items" /\
  committed db' = mkTables [] [] /\
  log db' = [(Begin, true);
             (InsertOrder "u1" (ReqTotal u1_request2) "pending", true);
             (InsertItem 1 1 2, false);
             (Rollback, true)].
Proof.
  intros db.
  pose proof (create_order_rolls_back ProductService.Atoi u1_request2 1001
                db 1 [] (reach_init _ 1000 [false; false; true])
                ltac:(discriminate) ltac:(discriminate)
                ltac:(simpl; lia) eq_refl) as Hw.
  destruct (createOrderHandler (Some u1_request2) 1001 db) as [resp db'].
  destruct Hw as (-> & -> & _ & -> & _). repeat split.
Defined.

(** A listing for "u1", who has one order, whose items query fails. *)
Lemma list_leaves_out_failed_orders_witness :
  let db0 := db_init 1000 [false; false; false; false] in
  let db1 := (createOrderHandler (Some u1_request) 1001 db0).2 in
  let db2 := mkDB (committed db1) (tx db1) (orders_id_seq db1)
                  (order_items_id_seq db1) (clock db1) [false; false; true]
                  (log db1) in
  (getUserOrdersHandler "u1" db2).1 = mkResponse StatusOK (JSONBody []).
Proof.
  intros db0 db1 db2.
  destruct (list_leaves_out_failed_orders "u1" db2 [true] [] eq_refl eq_refl)
    as [Hw _].
  exact Hw.
Defined.

(** The body [{"user_id":"","items":[]}]. *)
Lemma create_order_validation_witness :
  let req := mkOrderRequest "" [] S754_nan in
  createOrderHandler (Some req) 1001 (db_init 1000 []) =
    (error StatusBadRequest "User ID and items are required",
     db_init 1000 []).
Proof.
  intros req.
  pose proof (create_order_validation req 1001 (db_init 1000 [])) as Hw.
  destruct (createOrderHandler (Some req) 1001 (db_init 1000 []))
    as [resp db'].
  destruct Hw as (Hresp & _ & Hdb & _).
  rewrite (proj2 Hresp), Hdb by (by left). reflexivity.
Defined.

(** The scenario of the specification on the empty store. *)
Lemma create_order_succeeds_witness :
  (createOrderHandler (Some u1_request) 1001 (db_init 1000 [])).1 =
    mkResponse StatusCreated
      (JSONBody (mkOrder 1 "u1" [mkOrderItem 1 2] (ReqTotal u1_request)
                         "pending" 1001)).
Proof.
  pose proof (create_order_succeeds ProductService.Atoi u1_request 1001
                (db_init 1000 []) (reach_init _ 1000 [])
                ltac:(discriminate) ltac:(discriminate) eq_refl) as Hw.
  destruct (createOrderHandler (Some u1_request) 1001 (db_init 1000 []))
    as [resp db'].
  destruct Hw as (-> & _). reflexivity.
Defined.

(** The id "abc", for a store that reads integers as [strconv.Atoi]
    does. *)
Lemma detail_of_rejected_id_is_internal_witness :
  (getOrderDetailHandler ProductService.Atoi "abc" (db_init 1000 [])).1 =
    error StatusInternalServerError "Failed to retrieve order".
Proof.
  pose proof (detail_of_rejected_id_is_internal ProductService.Atoi "abc"
                (db_init 1000 []) eq_refl) as Hw.
  destruct (getOrderDetailHandler ProductService.Atoi "abc" (db_init 1000 []))
    as [resp db'].
  destruct Hw as (-> & _). reflexivity.
Defined.

Example detail_of_unknown_order :
  (getOrderDetailHandler ProductService.Atoi "999999" (db_init 1000 [])).1 =
    error StatusNotFound "Order not found".
Proof. reflexivity. Qed.

Example create_then_list :
  let db1 := (createOrderHandler (Some u1_request2) 1001 (db_init 1000 [])).2 in
  (getUserOrdersHandler "u1" db1).1 =
    mkResponse StatusOK
      (JSONBody [mkOrder 1 "u1" [mkOrderItem 1 2; mkOrderItem 3 1]
                         (ReqTotal u1_request2) "pending" 1000]).
Proof. reflexivity. Qed.

Example commit_failure_leaves_nothing :
  let db := db_init 1000 [false; false; false; true] in
  let '(resp, db') := createOrderHandler (Some u1_request) 1001 db in
  resp = error StatusInternalServerError "Failed to commit order" /\
  committed db' = mkTables [] [].
Proof. split; reflexivity. Qed.

End OrderExamples.

(** * Further properties of the code *)

(** ** Cart service *)

Section CartMore.
Import CartService.
Context {Blob : Type} `{JSON Blob}.
Implicit Types (r : @Redis Blob) (c : Cart) (items : list CartItem).

Lemma wrap_add_l x y : wrap (wrap x + y) = wrap (x + y).
Proof.
  unfold wrap, intSize.
  replace (2 ^ (64 - 1)) with 9223372036854775808 by reflexivity.
  replace (2 ^ 64) with 18446744073709551616 by reflexivity.
  f_equal.
  replace ((x + 9223372036854775808) mod 18446744073709551616
             - 9223372036854775808 + y + 9223372036854775808)
    with ((x + 9223372036854775808) mod 18446744073709551616 + y) by lia.
  rewrite Zplus_mod_idemp_l. f_equal. lia.
Qed.

Lemma int_add_assoc (x y z : Z) :
  int_add (int_add x y) z = int_add x (int_add y z).
Proof.
  unfold int_add. rewrite wrap_add_l.
  rewrite (Z.add_comm x (wrap (y + z))), wrap_add_l. f_equal. lia.
Qed.

Lemma cart_key_inj u u' : cart_key u = cart_key u' -> u = u'.
Proof. unfold cart_key. simpl. intros [= Hu]. exact Hu. Qed.

(** The loop of [add] on any list of entries, with or without repeated
    product ids. *)
Lemma add_item_first items1 x items2 it :
  ProductID it ∉ map ProductID items1 ->
  ProductID x = ProductID it ->
  add_item (items1 ++ x :: items2) it =
    items1 ++ mkCartItem (ProductID x) (int_add (Quantity x) (Quantity it))
           :: items2.
Proof.
  unfold add_item. induction items1 as [|y ys IH]; simpl.
  - intros _ Hx. by rewrite decide_True.
  - rewrite not_elem_of_cons. intros [Hy Hys] Hx.
    rewrite decide_False by done. specialize (IH Hys Hx).
    destruct (add_loop (ys ++ x :: items2) it) as [l fnd].
    destruct fnd; simpl in *; by rewrite IH.
Qed.

Lemma add_item_absent items it :
  ProductID it ∉ map ProductID items -> add_item items it = items ++ [it].
Proof. intros Hn. unfold add_item. by rewrite add_loop_absent. Qed.

Lemma add_item_cons_eq y ys it :
  ProductID y = ProductID it ->
  add_item (y :: ys) it =
    mkCartItem (ProductID y) (int_add (Quantity y) (Quantity it)) :: ys.
Proof. intros Hy. unfold add_item. simpl. by rewrite decide_True. Qed.

Lemma add_item_cons_ne y ys it :
  ProductID y <> ProductID it ->
  add_item (y :: ys) it = y :: add_item ys it.
Proof.
  intros Hy. unfold add_item. simpl. rewrite decide_False by done.
  destruct (add_loop ys it) as [l fnd]. by destruct fnd.
Qed.

Lemma add_item_add_item items a b :
  ProductID b = ProductID a ->
  add_item (add_item items a) b =
    add_item items
      (mkCartItem (ProductID a) (int_add (Quantity a) (Quantity b))).
Proof.
  intros Hb. induction items as [|y ys IH].
  - unfold add_item. simpl. by rewrite decide_True.
  - destruct (decide (ProductID y = ProductID a)) as [Hy|Hy].
    + rewrite (add_item_cons_eq y ys a Hy).
      rewrite add_item_cons_eq by (simpl; congruence).
      rewrite add_item_cons_eq by done. simpl. by rewrite int_add_assoc.
    + rewrite (add_item_cons_ne y ys a Hy).
      rewrite add_item_cons_ne by congruence.
      rewrite add_item_cons_ne by done. by rewrite IH.
Qed.

Lemma remove_loop_add_item items it :
  remove_loop (add_item items it) (ProductID it) =
    remove_loop items (ProductID it).
Proof.
  induction items as [|y ys IH].
  - unfold add_item. simpl. by rewrite decide_False by (intros Hn; by apply Hn).
  - destruct (decide (ProductID y = ProductID it)) as [Hy|Hy].
    + rewrite (add_item_cons_eq y ys it Hy). simpl.
      by rewrite !decide_False by (intros Hn; apply Hn; exact Hy).
    + rewrite (add_item_cons_ne y ys it Hy). simpl.
      rewrite !decide_True by done. by rewrite IH.
Qed.

Lemma remove_loop_idemp items pid :
  remove_loop (remove_loop items pid) pid = remove_loop items pid.
Proof.
  induction items as [|y ys IH]; simpl; [done|].
  case_decide as Hy; simpl; [|done]. rewrite decide_True by done.
  by rewrite IH.
Qed.

Lemma remove_loop_absent items pid :
  pid ∉ map ProductID items -> remove_loop items pid = items.
Proof.
  induction items as [|y ys IH]; simpl; [done|].
  rewrite not_elem_of_cons. intros [Hy Hys].
  rewrite decide_True by done. by rewrite IH.
Qed.

(** The store is written only by a request that succeeds: [get] never
    writes, and a request answered with a status of 400 or more leaves
    every stored value as it was, whatever the faults of the store. *)
Theorem cart_writes_only_on_success op r :
  let '(resp, r') := serve op r in
  (forall u, op = OpGet u -> kv r' = kv r) /\
  (400 <= status resp -> kv r' = kv r).
Proof.
  assert (forall (op' : Op) (code : Z) (m m' : gmap string Blob),
            (400 <= code -> m' = m) ->
            (forall u, op' = OpGet u -> m' = m) ->
            (forall u, op' = OpGet u -> m' = m) /\ (400 <= code -> m' = m))
    as Hleaf by (intros; by split).
  destruct op as [u|u [it|]|u [pid|]|u]; simpl; try (by apply Hleaf).
  - unfold getCartHandler, bind, rdb_Get.
    destruct (pop_fault (faults r)) as [[] fs]; simpl; [by apply Hleaf|].
    destruct (kv r !! cart_key u) as [data|]; simpl; [|by apply Hleaf].
    destruct (Unmarshal data); by apply Hleaf.
  - unfold addToCartHandler, bind, rdb_Get, rdb_Set.
    destruct (pop_fault (faults r)) as [[] fs]; simpl; [by apply Hleaf|].
    destruct (kv r !! cart_key u) as [data|]; simpl.
    + destruct (Unmarshal data) as [c|]; simpl; [|by apply Hleaf].
      destruct (Marshal _); simpl; [|by apply Hleaf].
      destruct (pop_fault fs) as [[] fs']; simpl; [by apply Hleaf|].
      apply Hleaf; [unfold StatusCreated; lia|done].
    + destruct (Marshal _); simpl; [|by apply Hleaf].
      destruct (pop_fault fs) as [[] fs']; simpl; [by apply Hleaf|].
      apply Hleaf; [unfold StatusCreated; lia|done].
  - unfold removeFromCartHandler, bind, rdb_Get, rdb_Set.
    destruct (pop_fault (faults r)) as [[] fs]; simpl; [by apply Hleaf|].
    destruct (kv r !! cart_key u) as [data|]; simpl; [|by apply Hleaf].
    destruct (Unmarshal data) as [c|]; simpl; [|by apply Hleaf].
    destruct (Marshal _); simpl; [|by apply Hleaf].
    destruct (pop_fault fs) as [[] fs']; simpl; [by apply Hleaf|].
    apply Hleaf; [unfold StatusOK; lia|done].
  - unfold clearCartHandler, bind, rdb_Del.
    destruct (pop_fault (faults r)) as [[] fs]; simpl; [by apply Hleaf|].
    apply Hleaf; [unfold StatusOK; lia|done].
Qed.

(** A request for one user leaves the stored value of every other user
    as it was, whatever the request and the faults of the store. *)
Theorem cart_other_users_untouched op r u' :
  u' <> user_of op ->
  kv (serve op r).2 !! cart_key u' = kv r !! cart_key u'.
Proof.
  intros Hu.
  assert (forall u, u' <> u -> cart_key u <> cart_key u') as Hk.
  { intros u Hne Heq. apply Hne. symmetry. by apply cart_key_inj. }
  destruct op as [u|u [it|]|u [pid|]|u]; simpl in *; try done.
  - unfold getCartHandler, bind, rdb_Get.
    destruct (pop_fault (faults r)) as [[] fs]; simpl; [done|].
    destruct (kv r !! cart_key u) as [data|]; simpl; [|done].
    by destruct (Unmarshal data).
  - unfold addToCartHandler, bind, rdb_Get, rdb_Set.
    destruct (pop_fault (faults r)) as [[] fs]; simpl; [done|].
    destruct (kv r !! cart_key u) as [data|]; simpl.
    + destruct (Unmarshal data) as [c|]; simpl; [|done].
      destruct (Marshal _); simpl; [|done].
      destruct (pop_fault fs) as [[] fs']; simpl; [done|].
      apply lookup_insert_ne. by apply Hk.
    + destruct (Marshal _); simpl; [|done].
      destruct (pop_fault fs) as [[] fs']; simpl; [done|].
      apply lookup_insert_ne. by apply Hk.
  - unfold removeFromCartHandler, bind, rdb_Get, rdb_Set.
    destruct (pop_fault (faults r)) as [[] fs]; simpl; [done|].
    destruct (kv r !! cart_key u) as [data|]; simpl; [|done].
    destruct (Unmarshal data) as [c|]; simpl; [|done].
    destruct (Marshal _); simpl; [|done].
    destruct (pop_fault fs) as [[] fs']; simpl; [done|].
    apply lookup_insert_ne. by apply Hk.
  - unfold clearCartHandler, bind, rdb_Del.
    destruct (pop_fault (faults r)) as [[] fs]; simpl; [done|].
    apply lookup_delete_ne. by apply Hk.
Qed.

Lemma healthy_le n m fs :
  (n <= m)%nat -> healthy m fs = true -> healthy n fs = true.
Proof. apply healthy_drop_le. Qed.

(** [remove] is idempotent: on a store that answers, removing a product
    a second time answers with the same cart as the first time and leaves
    the store as the first left it. *)
Theorem remove_twice_is_remove_once r u pid data c :
  healthy 4 (faults r) = true ->
  kv r !! cart_key u = Some data ->
  Unmarshal data = Some c ->
  let '(resp1, r1) := removeFromCartHandler u (Some pid) r in
  let '(resp2, r2) := removeFromCartHandler u (Some pid) r1 in
  resp1 = mkResponse StatusOK
            (JSONBody (mkCart (UserID c) (remove_loop (Items c) pid))) /\
  resp2 = resp1 /\
  kv r2 = kv r1.
Proof.
  intros Hh Hk Hu.
  destruct (removeFromCartHandler_healthy r u pid data c
              (healthy_le 2 4 _ ltac:(lia) Hh) Hk Hu) as (data1 & Hm1 & ->).
  set (cart1 := mkCart _ _) in *.
  edestruct (removeFromCartHandler_healthy
               (mkRedis (<[cart_key u := data1]> (kv r)) (drop 2 (faults r)))
               u pid data1 cart1) as (data2 & Hm2 & ->).
  - simpl. by apply (healthy_drop 2 2).
  - simpl. apply lookup_insert_eq.
  - by apply Unmarshal_Marshal.
  - subst cart1. simpl in *. rewrite remove_loop_idemp in Hm2 |- *.
    split; [done|]. split; [done|].
    rewrite Hm1 in Hm2. injection Hm2 as <-. apply insert_insert_eq.
Qed.

(** [add] followed by [remove] of the product added: on a store that
    answers, the cart is the one before the add without the entries of
    that product; it is the cart before the add when it had none. *)
Theorem add_then_remove r u c it :
  healthy 4 (faults r) = true ->
  load r u = Some c ->
  let r1 := (addToCartHandler u (Some it) r).2 in
  let '(resp, r2) := removeFromCartHandler u (Some (ProductID it)) r1 in
  let cart2 := mkCart (UserID c) (remove_loop (Items c) (ProductID it)) in
  resp = mkResponse StatusOK (JSONBody cart2) /\
  load r2 u = Some cart2 /\
  (ProductID it ∉ map ProductID (Items c) -> Items cart2 = Items c).
Proof.
  intros Hh Hl r1. subst r1.
  destruct (addToCartHandler_healthy r u c it
              (healthy_le 2 4 _ ltac:(lia) Hh) Hl) as (data1 & Hm1 & ->).
  cbn [snd].
  edestruct (removeFromCartHandler_healthy
               (mkRedis (<[cart_key u := data1]> (kv r)) (drop 2 (faults r)))
               u (ProductID it) data1) as (data2 & Hm2 & ->).
  - simpl. by apply (healthy_drop 2 2).
  - simpl. apply lookup_insert_eq.
  - by apply Unmarshal_Marshal.
  - simpl in *. rewrite remove_loop_add_item in Hm2 |- *.
    split; [done|]. split; [by apply load_insert|].
    apply remove_loop_absent.
Qed.

(** Two adds of one product do what one add of the two quantities added
    in Go's [int] does: on a store that answers, the second add answers
    with the cart that the single add answers with, and the stored values
    are the same. *)
Theorem add_twice_is_add_of_sum r u c a b :
  healthy 4 (faults r) = true ->
  load r u = Some c ->
  ProductID b = ProductID a ->
  let r1 := (addToCartHandler u (Some a) r).2 in
  let '(resp2, r2) := addToCartHandler u (Some b) r1 in
  let sum := mkCartItem (ProductID a) (int_add (Quantity a) (Quantity b)) in
  let '(resp, r') := addToCartHandler u (Some sum) r in
  resp2 = resp /\ kv r2 = kv r'.
Proof.
  intros Hh Hl Hb r1. subst r1.
  destruct (addToCartHandler_healthy r u c a
              (healthy_le 2 4 _ ltac:(lia) Hh) Hl) as (data1 & Hm1 & ->).
  cbn [snd].
  set (cart1 := mkCart (UserID c) (add_item (Items c) a)) in *.
  edestruct (addToCartHandler_healthy
               (mkRedis (<[cart_key u := data1]> (kv r)) (drop 2 (faults r)))
               u cart1 b) as (data2 & Hm2 & ->).
  - simpl. by apply (healthy_drop 2 2).
  - by apply load_insert.
  - destruct (addToCartHandler_healthy r u c
                (mkCartItem (ProductID a) (int_add (Quantity a) (Quantity b)))
                (healthy_le 2 4 _ ltac:(lia) Hh) Hl) as (data3 & Hm3 & ->).
    subst cart1. simpl in *.
    rewrite (add_item_add_item _ _ _ Hb) in Hm2 |- *.
    split; [done|]. rewrite Hm3 in Hm2. injection Hm2 as <-.
    apply insert_insert_eq.
Qed.

(** [add] on a cart that has the product, whether once or several times:
    on a store that answers, the first entry of the product has its
    quantity incremented, and every other entry, before or after it, of
    that product or not, is as it was. *)
Theorem add_increments_first_match r u c it items1 x items2 :
  healthy 2 (faults r) = true ->
  load r u = Some c ->
  Items c = items1 ++ x :: items2 ->
  ProductID it ∉ map ProductID items1 ->
  ProductID x = ProductID it ->
  let '(resp, r1) := addToCartHandler u (Some it) r in
  let cart1 :=
    mkCart (UserID c)
      (items1
         ++ mkCartItem (ProductID x) (int_add (Quantity x) (Quantity it))
         :: items2) in
  resp = mkResponse StatusCreated (JSONBody cart1) /\
  load r1 u = Some cart1.
Proof.
  intros Hh Hl Hitems Hn Hx.
  destruct (addToCartHandler_healthy r u c it Hh Hl) as (data1 & Hm1 & ->).
  rewrite Hitems, (add_item_first _ _ _ _ Hn Hx) in Hm1 |- *.
  split; [done|]. by apply load_insert.
Qed.

Lemma store_owned_insert r u data c fs :
  store_owned r -> Marshal c = Some data -> UserID c = u ->
  store_owned (mkRedis (<[cart_key u := data]> (kv r)) fs).
Proof.
  intros Hr Hm Hc key' data' c'. simpl.
  destruct (decide (cart_key u = key')) as [<-|Hne].
  - rewrite lookup_insert_eq. intros [= <-].
    rewrite (Unmarshal_Marshal _ _ Hm). intros [= <-]. by rewrite Hc.
  - rewrite lookup_insert_ne by done. apply Hr.
Qed.

Lemma serve_owned op r : store_owned r -> store_owned (serve op r).2.
Proof.
  intros Hr.
  assert (forall fs, store_owned (mkRedis (kv r) fs)) as Hfs.
  { intros fs key data c. simpl. apply Hr. }
  destruct op as [u|u [it|]|u [pid|]|u]; simpl; try (by destruct r).
  - unfold getCartHandler, bind, rdb_Get.
    destruct (pop_fault (faults r)) as [[] fs]; simpl; [done|].
    destruct (kv r !! cart_key u) as [data|]; simpl;
      [destruct (Unmarshal data); simpl|]; done.
  - unfold addToCartHandler, bind, rdb_Get, rdb_Set.
    destruct (pop_fault (faults r)) as [[] fs]; simpl; [done|].
    destruct (kv r !! cart_key u) as [data|] eqn:Hk; simpl.
    + destruct (Unmarshal data) as [c|] eqn:Hu; simpl; [|done].
      destruct (Marshal _) as [data'|] eqn:Hm; simpl; [|done].
      destruct (pop_fault fs) as [[] fs']; simpl; [done|].
      eapply (store_owned_insert (mkRedis (kv r) fs)); [done|exact Hm|].
      simpl. apply cart_key_inj. symmetry. by eapply Hr.
    + destruct (Marshal _) as [data'|] eqn:Hm; simpl; [|done].
      destruct (pop_fault fs) as [[] fs']; simpl; [done|].
      by eapply (store_owned_insert (mkRedis (kv r) fs)); [done|exact Hm|].
  - unfold removeFromCartHandler, bind, rdb_Get, rdb_Set.
    destruct (pop_fault (faults r)) as [[] fs]; simpl; [done|].
    destruct (kv r !! cart_key u) as [data|] eqn:Hk; simpl; [|done].
    destruct (Unmarshal data) as [c|] eqn:Hu; simpl; [|done].
    destruct (Marshal _) as [data'|] eqn:Hm; simpl; [|done].
    destruct (pop_fault fs) as [[] fs']; simpl; [done|].
    eapply (store_owned_insert (mkRedis (kv r) fs)); [done|exact Hm|].
    simpl. apply cart_key_inj. symmetry. by eapply Hr.
  - unfold clearCartHandler, bind, rdb_Del.
    destruct (pop_fault (faults r)) as [[] fs]; simpl; [done|].
    intros key data c. simpl.
    destruct (decide (cart_key u = key)) as [<-|Hne].
    + by rewrite lookup_delete_eq.
    + rewrite lookup_delete_ne by done. apply Hr.
Qed.

(** In every store the service reaches, under any faults, the cart that
    [get] answers with for a user carries the id of that user, and so does
    the cart that [add] and [remove] answer with. *)
Theorem answered_cart_is_of_user r op c :
  reachable r ->
  body (serve op r).1 = JSONBody c ->
  UserID c = user_of op.
Proof.
  intros Hreach.
  assert (store_owned r) as Hr.
  { induction Hreach as [fs|r op' _ IH].
    - intros key data c'. simpl. by rewrite lookup_empty.
    - by apply serve_owned. }
  assert (forall u data c', kv r !! cart_key u = Some data ->
            Unmarshal data = Some c' -> UserID c' = u) as Hu.
  { intros u data c' Hk Hd. apply cart_key_inj. symmetry. by eapply Hr. }
  destruct op as [u|u [it|]|u [pid|]|u]; simpl; try done.
  - unfold getCartHandler, bind, rdb_Get.
    destruct (pop_fault (faults r)) as [[] fs]; simpl; [done|].
    destruct (kv r !! cart_key u) as [data|] eqn:Hk; simpl.
    + destruct (Unmarshal data) as [c'|] eqn:Hd; simpl; [|done].
      intros [= <-]. by eapply Hu.
    + by intros [= <-].
  - unfold addToCartHandler, bind, rdb_Get, rdb_Set.
    destruct (pop_fault (faults r)) as [[] fs]; simpl; [done|].
    destruct (kv r !! cart_key u) as [data|] eqn:Hk; simpl.
    + destruct (Unmarshal data) as [c'|] eqn:Hd; simpl; [|done].
      destruct (Marshal _); simpl; [|done].
      destruct (pop_fault fs) as [[] fs']; simpl; [done|].
      intros [= <-]. simpl. by eapply Hu.
    + destruct (Marshal _); simpl; [|done].
      destruct (pop_fault fs) as [[] fs']; simpl; [done|].
      by intros [= <-].
  - unfold removeFromCartHandler, bind, rdb_Get, rdb_Set.
    destruct (pop_fault (faults r)) as [[] fs]; simpl; [done|].
    destruct (kv r !! cart_key u) as [data|] eqn:Hk; simpl; [|done].
    destruct (Unmarshal data) as [c'|] eqn:Hd; simpl; [|done].
    destruct (Marshal _); simpl; [|done].
    destruct (pop_fault fs) as [[] fs']; simpl; [done|].
    intros [= <-]. simpl. by eapply Hu.
  - unfold clearCartHandler, bind, rdb_Del.
    by destruct (pop_fault (faults r)) as [[] fs].
Qed.

(** After [clear] a user is as one never seen: on a store that answers, a
    [remove] answers 404 "Cart not found", where a [get] answers the empty
    cart, and an [add] answers with the cart of the item alone. *)
Theorem after_clear_user_is_new r u pid it :
  healthy 3 (faults r) = true ->
  let r1 := (clearCartHandler u r).2 in
  (removeFromCartHandler u (Some pid) r1).1 =
    error StatusNotFound "Cart not found" /\
  (addToCartHandler u (Some it) r1).1 =
    mkResponse StatusCreated (JSONBody (mkCart u [it])).
Proof.
  intros Hh r1. subst r1.
  destruct (rdb_Del_healthy 2 r (cart_key u) Hh) as [Hd Hh1].
  unfold clearCartHandler, bind, ret. rewrite Hd. cbn [snd].
  set (r1 := mkRedis _ _) in *.
  assert (kv r1 !! cart_key u = None) as Hk by apply lookup_delete_eq.
  split.
  - destruct (rdb_Get_healthy 1 r1 (cart_key u) Hh1) as [Hg _].
    unfold removeFromCartHandler, bind. by rewrite Hg, Hk.
  - assert (load r1 u = Some (mkCart u [])) as Hl
      by (unfold load; by rewrite Hk).
    destruct (addToCartHandler_healthy r1 u _ it Hh1 Hl) as (data & _ & ->).
    done.
Qed.

End CartMore.

Section CartMoreExamples.
Import CartService.

(** An add for "u1" while the store is down on the write. *)
Lemma cart_writes_only_on_success_witness :
  let r := mkRedis (kv u1_store) [false; true] in
  let '(resp, r') := addToCartHandler "u1" (Some (mkCartItem 1 1)) r in
  status resp = StatusInternalServerError /\ kv r' = kv r.
Proof.
  intros r.
  pose proof (cart_writes_only_on_success
                (OpAdd "u1" (Some (mkCartItem 1 1))) r) as Hw.
  change (serve (OpAdd "u1" (Some (mkCartItem 1 1))) r)
    with (addToCartHandler "u1" (Some (mkCartItem 1 1)) r) in Hw.
  destruct (addToCartHandler "u1" (Some (mkCartItem 1 1)) r) as [resp r']
    eqn:Hrun.
  assert (status resp = StatusInternalServerError) as Hs.
  { apply (f_equal (fun p => status p.1)) in Hrun. cbn beta in Hrun.
    cbn [fst] in Hrun. rewrite <- Hrun. reflexivity. }
  split; [exact Hs|]. apply Hw. rewrite Hs. unfold StatusInternalServerError.
  lia.
Defined.

(** A clear for "u2" and the cart of "u1". *)
Lemma cart_other_users_untouched_witness :
  kv (clearCartHandler "u2" u1_store).2 !! cart_key "u1" =
    kv u1_store !! cart_key "u1".
Proof.
  apply (cart_other_users_untouched (OpClear "u2") u1_store "u1").
  discriminate.
Defined.

(** Removing product 3 twice from the cart of "u1". *)
Lemma remove_twice_is_remove_once_witness :
  let r1 := (removeFromCartHandler "u1" (Some 3) u1_store).2 in
  (removeFromCartHandler "u1" (Some 3) r1).1 =
    mkResponse StatusOK (JSONBody (mkCart "u1" [mkCartItem 1 2])).
Proof.
  intros r1. subst r1.
  pose proof (remove_twice_is_remove_once u1_store "u1" 3
                (mkCart "u1" [mkCartItem 1 2; mkCartItem 3 1])
                (mkCart "u1" [mkCartItem 1 2; mkCartItem 3 1])
                eq_refl eq_refl eq_refl) as Hw.
  destruct (removeFromCartHandler "u1" (Some 3) u1_store) as [resp1 r1].
  cbn [snd].
  destruct (removeFromCartHandler "u1" (Some 3) r1) as [resp2 r2].
  destruct Hw as (-> & -> & _). reflexivity.
Defined.

(** Adding product 7, which "u1" does not have, then removing it. *)
Lemma add_then_remove_witness :
  let r1 := (addToCartHandler "u1" (Some (mkCartItem 7 5)) u1_store).2 in
  (removeFromCartHandler "u1" (Some 7) r1).1 =
    mkResponse StatusOK
      (JSONBody (mkCart "u1" [mkCartItem 1 2; mkCartItem 3 1])).
Proof.
  pose proof (add_then_remove u1_store "u1"
                (mkCart "u1" [mkCartItem 1 2; mkCartItem 3 1])
                (mkCartItem 7 5) eq_refl eq_refl) as Hw.
  cbv zeta in Hw |- *. cbn [ProductID] in Hw.
  destruct (removeFromCartHandler "u1" (Some 7) _) as [resp r2].
  destruct Hw as (-> & _). reflexivity.
Defined.

(** Adding 2 and then 3 units of product 1 to the cart of "u1", and
    adding 5 at once. *)
Lemma add_twice_is_add_of_sum_witness :
  let r1 := (addToCartHandler "u1" (Some (mkCartItem 1 2)) u1_store).2 in
  (addToCartHandler "u1" (Some (mkCartItem 1 3)) r1).1 =
    (addToCartHandler "u1" (Some (mkCartItem 1 5)) u1_store).1.
Proof.
  pose proof (add_twice_is_add_of_sum u1_store "u1"
                (mkCart "u1" [mkCartItem 1 2; mkCartItem 3 1])
                (mkCartItem 1 2) (mkCartItem 1 3)
                eq_refl eq_refl eq_refl) as Hw.
  cbv zeta in Hw |- *.
  destruct (addToCartHandler "u1" (Some (mkCartItem 1 3)) _) as [resp2 r2].
  change (mkCartItem (ProductID (mkCartItem 1 2))
            (int_add (Quantity (mkCartItem 1 2)) (Quantity (mkCartItem 1 3))))
    with (mkCartItem 1 5) in Hw.
  destruct (addToCartHandler "u1" (Some (mkCartItem 1 5)) u1_store)
    as [resp r'].
  destruct Hw as [-> _]. reflexivity.
Defined.

(** A stored cart with two entries of product 3: only the first one is
    incremented. *)
Lemma add_increments_first_match_witness :
  let c := mkCart "u9" [mkCartItem 1 2; mkCartItem 3 1; mkCartItem 3 8] in
  let r := mkRedis {[ cart_key "u9" := c ]} [] in
  (addToCartHandler "u9" (Some (mkCartItem 3 4)) r).1 =
    mkResponse StatusCreated
      (JSONBody
         (mkCart "u9" [mkCartItem 1 2; mkCartItem 3 5; mkCartItem 3 8])).
Proof.
  intros c r.
  assert (3 ∉ map ProductID [mkCartItem 1 2]) as Hn.
  { simpl. intros Hin. apply list_elem_of_singleton in Hin. discriminate. }
  pose proof (add_increments_first_match r "u9" c (mkCartItem 3 4)
                [mkCartItem 1 2] (mkCartItem 3 1) [mkCartItem 3 8]
                eq_refl eq_refl eq_refl Hn eq_refl) as Hw.
  destruct (addToCartHandler "u9" (Some (mkCartItem 3 4)) r) as [resp r1].
  destruct Hw as [-> _]. reflexivity.
Defined.

(** A store the service has reached by an add for "u1": what [get]
    answers is a cart of "u1". *)
Lemma answered_cart_is_of_user_witness :
  let r := (serve (OpAdd "u1" (Some (mkCartItem 1 2))) empty_store).2 in
  exists c, body (serve (OpGet "u1") r).1 = JSONBody c /\ UserID c = "u1".
Proof.
  intros r. eexists. split; [reflexivity|].
  apply (answered_cart_is_of_user r (OpGet "u1")); [|reflexivity].
  apply reach_serve, reach_empty.
Defined.

(** Clearing the cart of "u1", then removing from it and adding to it. *)
Lemma after_clear_user_is_new_witness :
  let r1 := (clearCartHandler "u1" u1_store).2 in
  (removeFromCartHandler "u1" (Some 1) r1).1 =
    error StatusNotFound "Cart not found" /\
  (addToCartHandler "u1" (Some (mkCartItem 9 1)) r1).1 =
    mkResponse StatusCreated (JSONBody (mkCart "u1" [mkCartItem 9 1])).
Proof.
  apply (after_clear_user_is_new u1_store "u1" 1 (mkCartItem 9 1)).
  reflexivity.
Defined.

End CartMoreExamples.

(** ** Order service *)

Section OrderMore.
Import OrderService.
Implicit Types (db : DB) (items : list OrderItem) (t : Tables).

Open Scope state_scope.

Lemma healthy_nil n : healthy n [] = true.
Proof. unfold healthy. by destruct n. Qed.

Lemma imap_item_row_cons orderID first item items :
  imap (item_row orderID first) (item :: items) =
    item_row orderID first 0 item :: imap (item_row orderID (first + 1)) items.
Proof.
  simpl. f_equal. apply imap_ext. intros i x _. unfold item_row. simpl.
  f_equal. lia.
Qed.

(** The loop of inserts under any faults: either every insert is done in
    the transaction, or the loop stops with nothing committed. *)
Lemma insert_items_cases orderID items : forall db t,
  tx db = Some t ->
  (exists fs l,
     insert_items orderID items db =
       (true,
        mkDB (committed db)
             (Some (mkTables (orders t)
                      (order_items t
                         ++ imap (item_row orderID (order_items_id_seq db))
                                 items)))
             (orders_id_seq db)
             (order_items_id_seq db + Z.of_nat (length items)) (clock db)
             fs l)) \/
  (exists t' iseq fs l,
     insert_items orderID items db =
       (false,
        mkDB (committed db) (Some t') (orders_id_seq db) iseq (clock db) fs l)
     /\ order_items_id_seq db <= iseq).
Proof.
  induction items as [|item items IH]; intros db t Ht.
  - left. exists (faults db), (log db). simpl. unfold ret.
    rewrite app_nil_r, Z.add_0_r. destruct db, t; simpl in *. by subst.
  - simpl. unfold bind, tx_insert_item.
    destruct (call_frame (InsertItem orderID (ProductID item) (Quantity item))
                db) as (ok & fs & l & ->).
    destruct ok; simpl; rewrite Ht.
    + match goal with |- context [insert_items orderID items ?d] =>
        destruct (IH d (mkTables (orders t)
                          (order_items t
                             ++ [mkItemRow (order_items_id_seq db) orderID
                                   (ProductID item) (Quantity item)]))
                    eq_refl)
          as [(fs' & l' & ->)|(t' & iseq & fs' & l' & -> & Hle)] end.
      * left. exists fs', l'. simpl. f_equal. f_equal; [|lia].
        f_equal. f_equal. rewrite <- app_assoc. f_equal.
        change (item_row orderID (order_items_id_seq db) 0 item
                  :: imap (item_row orderID (order_items_id_seq db) ∘ S) items)
          with (imap (item_row orderID (order_items_id_seq db)) (item :: items)).
        rewrite imap_item_row_cons. unfold item_row at 2. simpl.
        by rewrite Z.add_0_r.
      * right. exists t', iseq, fs', l'. simpl in *. split; [done|lia].
    + right. exists t, (order_items_id_seq db), fs, l. done.
Qed.

(** [createOrderHandler] under any request and any faults: either the
    answer is 201 and the order of the request is what was added to the
    committed tables, or the answer is an error and the committed tables
    are as before. *)
Lemma createOrderHandler_cases decoded now db :
  let '(resp, db') := createOrderHandler decoded now db in
  clock db' = clock db /\
  ((exists req,
      decoded = Some req /\ ReqUserID req <> "" /\ ReqItems req <> [] /\
      resp = mkResponse StatusCreated
               (JSONBody (mkOrder (orders_id_seq db) (ReqUserID req)
                                  (ReqItems req) (ReqTotal req) "pending" now)) /\
      committed db' = committed_with db req /\
      orders_id_seq db' = orders_id_seq db + 1 /\
      tx db' = None) \/
   ((status resp = StatusBadRequest \/ status resp = StatusInternalServerError) /\
    (exists msg, body resp = ErrorBody msg) /\
    committed db' = committed db /\
    orders_id_seq db <= orders_id_seq db' <= orders_id_seq db + 1 /\
    (tx db' = None \/ tx db' = tx db))).
Proof.
  destruct decoded as [req|]; simpl.
  2: { split; [done|]. right. repeat split; eauto; lia. }
  unfold createOrderHandler.
  destruct (decide (ReqUserID req = "" \/ ReqItems req = [])) as [Hbad|Hok].
  { rewrite (invalid_request _ Hbad). simpl. split; [done|]. right.
    repeat split; eauto; lia. }
  assert (ReqUserID req <> "" /\ ReqItems req <> []) as [Hu Hi] by tauto.
  rewrite (valid_request _ Hu Hi).
  unfold bind at 1. unfold db_Begin.
  destruct (call_frame Begin db) as (ok & fs & l & ->).
  destruct ok; simpl.
  2: { split; [done|]. right. repeat split; eauto; try lia. }
  unfold bind at 1. unfold bind at 1. unfold tx_insert_order.
  match goal with |- context [call ?s ?d] =>
    destruct (call_frame s d) as (ok & fs1 & l1 & ->) end.
  destruct ok; simpl.
  2: { split; [done|]. right. repeat split; eauto; try lia. }
  unfold bind at 1.
  match goal with |- context [insert_items ?o ?i ?d] =>
    destruct (insert_items_cases o i d _ eq_refl)
      as [(fs2 & l2 & ->)|(t' & iseq & fs2 & l2 & -> & Hle)] end.
  2: { simpl. split; [done|]. right. repeat split; eauto; try lia. }
  simpl. unfold bind at 1. unfold tx_Commit.
  match goal with |- context [call ?s ?d] =>
    destruct (call_frame s d) as (ok & fs3 & l3 & ->) end.
  destruct ok; simpl.
  2: { split; [done|]. right. repeat split; eauto; try lia. }
  split; [done|]. left. exists req. repeat split; done.
Qed.

(** *** Reads *)

Lemma getUserOrdersHandler_frame u db :
  exists resp fs l,
    getUserOrdersHandler u db =
      (resp, mkDB (committed db) (tx db) (orders_id_seq db)
                  (order_items_id_seq db) (clock db) fs l).
Proof.
  unfold getUserOrdersHandler, bind at 1. unfold db_Query_orders.
  destruct (call_frame (SelectOrdersByUser u) db) as (ok & fs & l & ->).
  destruct ok; simpl; [|by eauto].
  unfold bind.
  match goal with |- context [collect_orders ?r ?a ?d] =>
    destruct (collect_orders_frame r a d) as (res & fs2 & l2 & ->) end.
  destruct res; simpl; eauto.
Qed.

Lemma getOrderDetailHandler_frame int4in orderID db :
  exists resp fs l,
    getOrderDetailHandler int4in orderID db =
      (resp, mkDB (committed db) (tx db) (orders_id_seq db)
                  (order_items_id_seq db) (clock db) fs l).
Proof.
  unfold getOrderDetailHandler, bind at 1. unfold db_QueryRow_order.
  destruct (call_frame (SelectOrder orderID) db) as (ok & fs & l & ->).
  destruct ok; simpl; [|by eauto].
  destruct (int4in orderID) as [id|]; simpl; [|by eauto].
  destruct (filter _ _) as [|row ?]; simpl; [by eauto|].
  unfold bind, db_Query_items.
  match goal with |- context [call ?s ?d] =>
    destruct (call_frame s d) as (ok & fs' & l' & ->) end.
  destruct ok; simpl; eauto.
Qed.

Lemma healthHandler_frame db :
  exists (ok : bool) fs,
    healthHandler db =
      (mkResponse StatusOK
         (JSONBody (mkHealth (if ok then "healthy" else "unhealthy")
                             "order-service")),
       mkDB (committed db) (tx db) (orders_id_seq db)
            (order_items_id_seq db) (clock db) fs (log db)) /\
    ok = negb (pop_fault (faults db)).1.
Proof.
  unfold healthHandler, bind, db_Ping.
  destruct (pop_fault (faults db)) as [f fs]. exists (negb f), fs.
  by destruct f.
Qed.

(** Listing the orders of a user, showing one order and checking the
    health of the service change neither the committed tables nor the
    sequences, whatever the faults of the store. *)
Theorem reads_change_nothing int4in u orderID db :
  let same db' :=
    committed db' = committed db /\ tx db' = tx db /\
    orders_id_seq db' = orders_id_seq db /\
    order_items_id_seq db' = order_items_id_seq db in
  same (getUserOrdersHandler u db).2 /\
  same (getOrderDetailHandler int4in orderID db).2 /\
  same (healthHandler db).2.
Proof.
  intros same. subst same. cbv beta.
  destruct (getUserOrdersHandler_frame u db) as (r1 & fs1 & l1 & ->).
  destruct (getOrderDetailHandler_frame int4in orderID db)
    as (r2 & fs2 & l2 & ->).
  destruct (healthHandler_frame db) as (ok & fs3 & -> & _).
  simpl. repeat split; done.
Qed.

(** Order creation is all or nothing under any request and any faults of
    the store: either the answer is 201 and the committed tables are the
    ones before with the order and all its items added, or the answer is a
    400 or a 500 and the committed tables are the ones before. *)
Theorem create_order_all_or_nothing decoded now db :
  let '(resp, db') := createOrderHandler decoded now db in
  (status resp = StatusCreated /\
   exists req, decoded = Some req /\ committed db' = committed_with db req) \/
  ((status resp = StatusBadRequest \/ status resp = StatusInternalServerError)
   /\ committed db' = committed db).
Proof.
  pose proof (createOrderHandler_cases decoded now db) as Hc.
  destruct (createOrderHandler decoded now db) as [resp db'].
  destruct Hc as [_ [(req & -> & _ & _ & -> & Hcom & _)|(Hs & _ & Hcom & _)]].
  - left. split; [done|]. by exists req.
  - by right.
Qed.

(** After every insert has succeeded, a [Commit] that fails gives a 500
    "Failed to commit order": nothing is committed, the transaction is
    over without a rollback being sent, and the id the order had been
    given is used up. *)
Theorem commit_failure_persists_nothing req now db rest :
  ReqUserID req <> "" ->
  ReqItems req <> [] ->
  healthy (length (ReqItems req) + 2) (faults db) = true ->
  drop (length (ReqItems req) + 2) (faults db) = true :: rest ->
  let '(resp, db') := createOrderHandler (Some req) now db in
  resp = error StatusInternalServerError "Failed to commit order" /\
  committed db' = committed db /\
  tx db' = None /\
  orders_id_seq db' = orders_id_seq db + 1 /\
  log db' =
    log db
      ++ [(Begin, true);
          (InsertOrder (ReqUserID req) (ReqTotal req) "pending", true)]
      ++ map (item_stmt (orders_id_seq db) true) (ReqItems req)
      ++ [(Commit, false)].
Proof.
  intros Hu Hi Hh Hd. unfold createOrderHandler.
  rewrite (valid_request _ Hu Hi).
  replace (length (ReqItems req) + 2)%nat
    with (S (S (length (ReqItems req)))) in Hh by lia.
  unfold bind at 1. unfold db_Begin.
  destruct (call_healthy _ Begin db Hh) as [-> Hh1]. simpl.
  unfold bind at 1. unfold bind at 1. unfold tx_insert_order.
  match goal with |- context [call ?s ?d] =>
    destruct (call_healthy _ s d Hh1) as [-> Hh2] end.
  simpl. unfold bind at 1.
  erewrite insert_items_succeeds; [|simpl; done|simpl; exact Hh2].
  simpl. unfold bind at 1. unfold tx_Commit.
  erewrite call_fail.
  2: { simpl. rewrite !drop_drop.
       replace (1 + (1 + length (ReqItems req)))%nat
         with (length (ReqItems req) + 2)%nat by lia. exact Hd. }
  simpl. rewrite <- !app_assoc. simpl. repeat split; done.
Qed.

(** *** The ids the store gives *)

Lemma serve_seq_mono int4in op db :
  orders_id_seq db <= orders_id_seq (serve int4in op db).
Proof.
  destruct op as [decoded now|u|orderID]; simpl.
  - pose proof (createOrderHandler_cases decoded now db) as Hc.
    destruct (createOrderHandler decoded now db) as [resp db'].
    destruct Hc as [_ [(req & _ & _ & _ & _ & _ & Hseq & _)|(_ & _ & _ & Hseq & _)]];
      simpl; lia.
  - destruct (getUserOrdersHandler_frame u db) as (r1 & fs1 & l1 & ->).
    simpl. lia.
  - destruct (getOrderDetailHandler_frame int4in orderID db)
      as (r2 & fs2 & l2 & ->). simpl. lia.
Qed.

Lemma serve_all_seq_mono int4in ops : forall db,
  orders_id_seq db <= orders_id_seq (serve_all int4in ops db).
Proof.
  induction ops as [|op ops IH]; intros db; simpl; [lia|].
  etrans; [apply (serve_seq_mono int4in op)|apply IH].
Qed.

(** The ids of the orders grow: an order created after another, whatever
    requests are served in between and whatever creations failed, has a
    greater id. *)
Theorem order_ids_increase int4in decoded1 now1 ops decoded2 now2 db o1 o2 :
  let '(resp1, db1) := createOrderHandler decoded1 now1 db in
  let '(resp2, db2) :=
    createOrderHandler decoded2 now2 (serve_all int4in ops db1) in
  body resp1 = JSONBody o1 ->
  body resp2 = JSONBody o2 ->
  ID o1 < ID o2.
Proof.
  pose proof (createOrderHandler_cases decoded1 now1 db) as Hc1.
  destruct (createOrderHandler decoded1 now1 db) as [resp1 db1].
  pose proof (createOrderHandler_cases decoded2 now2
                (serve_all int4in ops db1)) as Hc2.
  destruct (createOrderHandler decoded2 now2 (serve_all int4in ops db1))
    as [resp2 db2].
  intros Hb1 Hb2.
  destruct Hc1 as [_ [(req1 & _ & _ & _ & -> & _ & Hseq1 & _)
                     |(_ & (msg & Hm) & _)]]; [|congruence].
  destruct Hc2 as [_ [(req2 & _ & _ & _ & -> & _ & Hseq2 & _)
                     |(_ & (msg & Hm) & _)]]; [|congruence].
  simpl in Hb1, Hb2. injection Hb1 as <-. injection Hb2 as <-. simpl.
  pose proof (serve_all_seq_mono int4in ops db1). lia.
Qed.

(** *** What a listing holds *)

Lemma StronglySorted_sublist {A} (R : relation A) (k l : list A) :
  k `sublist_of` l -> StronglySorted R l -> StronglySorted R k.
Proof.
  induction 1 as [|x k l Hsub IH|x k l Hsub IH]; [done| |].
  - rewrite !StronglySorted_cons. intros [Hall Hl]. split; [|by apply IH].
    rewrite Forall_forall in Hall |- *. intros y Hy. apply Hall.
    by eapply elem_of_sublist.
  - rewrite StronglySorted_cons. intros [_ Hl]. by apply IH.
Qed.

Lemma newer_first_sorted t u :
  StronglySorted newer_first (orders_of_user t u).
Proof.
  unfold orders_of_user.
  assert (Transitive newer_first) as Htrans.
  { intros a b c. unfold newer_first. lia. }
  assert (base.Total newer_first) as Htotal.
  { intros a b. unfold newer_first. lia. }
  apply StronglySorted_merge_sort; done.
Qed.

(** The loop over the rows under any faults: the orders it collects are
    those of some of the rows, in the order of the rows, each with all the
    committed items of its row. *)
Lemma collect_orders_sublist rows : forall acc db found,
  (collect_orders rows acc db).1 = Some found ->
  exists kept,
    kept `sublist_of` rows /\
    found = acc ++ map (order_with_items (committed db)) kept.
Proof.
  induction rows as [|row rows IH]; intros acc db found; simpl.
  - intros [= <-]. exists []. split; [constructor|]. by rewrite app_nil_r.
  - unfold bind at 1.
    destruct (call_frame (ScanOrder (row_id row)) db) as (ok & fs & l & ->).
    destruct ok; simpl; [|done].
    unfold bind at 1. unfold db_Query_items.
    match goal with |- context [call ?s ?d] =>
      destruct (call_frame s d) as (ok & fs' & l' & ->) end.
    destruct ok; simpl.
    + intros Hc. apply IH in Hc as (kept & Hsub & ->). simpl.
      exists (row :: kept). split; [by constructor|].
      by rewrite <- app_assoc.
    + intros Hc. apply IH in Hc as (kept & Hsub & ->). simpl.
      exists kept. split; [by constructor|done].
Qed.

(** A listing that succeeds, whatever the faults of the store, holds only
    orders of the user asked for, each one a committed order with all its
    committed items, and holds them newest first. *)
Theorem listing_is_of_user_newest_first u db found :
  body (getUserOrdersHandler u db).1 = JSONBody found ->
  (forall o, o ∈ found ->
     UserID o = u /\
     exists row, row ∈ orders (committed db) /\
                 o = order_with_items (committed db) row) /\
  StronglySorted newest_first found.
Proof.
  unfold getUserOrdersHandler, bind at 1. unfold db_Query_orders.
  destruct (call_frame (SelectOrdersByUser u) db) as (ok & fs & l & ->).
  destruct ok; simpl; [|done].
  unfold bind.
  destruct (collect_orders _ _ _) as [[found'|] db'] eqn:Hc; simpl; [|done].
  intros [= <-].
  apply (f_equal fst) in Hc. simpl in Hc.
  apply collect_orders_sublist in Hc as (kept & Hsub & ->). simpl.
  split.
  - intros o (row & -> & Hin)%list_elem_of_fmap.
    pose proof (elem_of_sublist _ _ _ Hin Hsub) as Hrow.
    apply orders_of_user_elem in Hrow as [Hrow Huser]. split; [done|].
    by exists row.
  - pose proof (StronglySorted_sublist _ _ _ Hsub (newer_first_sorted _ u))
      as Hsorted.
    clear Hsub. induction kept as [|row kept IH]; simpl; [constructor|].
    apply StronglySorted_cons in Hsorted as [Hall Hkept].
    apply StronglySorted_cons. split; [|by apply IH].
    apply Forall_forall.
    intros o (row' & -> & Hin)%list_elem_of_fmap.
    exact (proj1 (Forall_forall _ _) Hall _ Hin).
Qed.

(** *** What the tables hold *)

Lemma elem_of_imap_item_row orderID first items row :
  row ∈ imap (item_row orderID first) items -> item_order_id row = orderID.
Proof.
  revert first. induction items as [|item items IH]; intros first.
  - by intros ?%elem_of_nil.
  - rewrite imap_item_row_cons. intros [->|Hin]%elem_of_cons; [done|].
    by eapply IH.
Qed.

Lemma committed_with_consistent db req :
  ReqUserID req <> "" -> ReqItems req <> [] ->
  tables_consistent (committed db) ->
  tables_consistent (committed_with db req).
Proof.
  intros Hu Hi [Hrows Hitems]. unfold committed_with. split; simpl.
  - intros row [Hin|Hnew]%elem_of_app.
    + destruct (Hrows row Hin) as (Hs & Hn & item & Hitem & Hid).
      split; [done|]. split; [done|]. exists item. split; [|done].
      apply elem_of_app. by left.
    + apply list_elem_of_singleton in Hnew as ->. simpl.
      split; [done|]. split; [done|].
      destruct (ReqItems req) as [|item items] eqn:Hreq; [done|].
      exists (item_row (orders_id_seq db) (order_items_id_seq db) 0 item).
      split; [|done]. apply elem_of_app. right.
      rewrite imap_item_row_cons. apply list_elem_of_here.
  - intros item [Hin|Hnew]%elem_of_app.
    + destruct (Hitems item Hin) as (row & Hrow & Hid).
      exists row. split; [|done]. apply elem_of_app. by left.
    + apply elem_of_imap_item_row in Hnew.
      eexists. split; [apply elem_of_app; right; apply list_elem_of_here|].
      by rewrite Hnew.
Qed.

Lemma reachable_consistent int4in db :
  reachable int4in db -> tables_consistent (committed db).
Proof.
  induction 1 as [c fs|db op _ IH|db c _ IH _]; simpl; [| |done].
  - split; by intros ? ?%elem_of_nil.
  - destruct op as [decoded now|u|orderID]; simpl.
    + pose proof (createOrderHandler_cases decoded now db) as Hc.
      destruct (createOrderHandler decoded now db) as [resp db']. simpl.
      destruct Hc as [_ [(req & _ & Hu & Hi & _ & -> & _)|(_ & _ & -> & _)]];
        [|done].
      by apply committed_with_consistent.
    + by destruct (getUserOrdersHandler_frame u db) as (r1 & fs1 & l1 & ->).
    + by destruct (getOrderDetailHandler_frame int4in orderID db)
        as (r2 & fs2 & l2 & ->).
Qed.

(** In every store the service reaches, every order is pending, has a
    user and at least one line item, every line item is the item of an
    order, the ids of the orders are distinct, positive and below the
    sequence, and no transaction is open. *)
Theorem reachable_tables_sound int4in db :
  reachable int4in db ->
  tables_consistent (committed db) /\
  NoDup (map row_id (orders (committed db))) /\
  (forall row, row ∈ orders (committed db) ->
     0 < row_id row < orders_id_seq db) /\
  (forall item, item ∈ order_items (committed db) ->
     0 < item_order_id item < orders_id_seq db) /\
  tx db = None.
Proof.
  intros Hreach.
  pose proof (reachable_consistent _ _ Hreach) as Hcons.
  destruct (reachable_wf _ _ Hreach) as (_ & Htx & Hnd & Hids).
  split; [done|]. split; [done|]. split; [done|]. split; [|done].
  intros item Hin. destruct Hcons as [_ Hitems].
  destruct (Hitems item Hin) as (row & Hrow & <-). by apply Hids.
Qed.

(** *** Reading back what was created *)

Lemma filter_none {A} (P : A -> Prop) `{!forall x, Decision (P x)} (l : list A) :
  (forall x, x ∈ l -> ~ P x) -> filter P l = [].
Proof.
  induction l as [|x l IH]; intros Hl; [done|].
  rewrite filter_cons_False by (apply Hl, list_elem_of_here).
  apply IH. intros y Hy. by apply Hl, list_elem_of_further.
Qed.


Lemma filter_row_id rows row :
  NoDup (map row_id rows) -> row ∈ rows ->
  filter (fun r => row_id r = row_id row) rows = [row].
Proof.
  induction rows as [|r rows IH]; simpl.
  - by intros _ ?%elem_of_nil.
  - intros [Hr Hnd]%NoDup_cons [->|Hin]%elem_of_cons.
    + rewrite filter_cons_True by done. f_equal. apply filter_none.
      intros x Hx Hid. apply Hr. rewrite <- Hid.
      apply list_elem_of_fmap. by exists x.
    + rewrite filter_cons_False; [by apply IH|].
      intros Hid. apply Hr. rewrite Hid. apply list_elem_of_fmap.
      by exists row.
Qed.




Lemma collect_orders_healthy rows : forall acc db,
  healthy (2 * length rows) (faults db) = true ->
  exists l,
    collect_orders rows acc db =
      (Some (acc ++ map (order_with_items (committed db)) rows),
       mkDB (committed db) (tx db) (orders_id_seq db) (order_items_id_seq db)
            (clock db) (drop (2 * length rows) (faults db)) l).
Proof.
  induction rows as [|row rows IH]; intros acc db Hh.
  - simpl. unfold ret. rewrite app_nil_r, drop_0. exists (log db).
    by destruct db.
  - simpl length in *.
    replace (2 * S (length rows))%nat with (S (S (2 * length rows))) in *
      by lia.
    simpl. unfold bind at 1.
    destruct (call_healthy _ (ScanOrder (row_id row)) db Hh) as [-> Hh1].
    simpl. unfold bind at 1. unfold db_Query_items.
    match goal with |- context [call ?s ?d] =>
      destruct (call_healthy _ s d Hh1) as [-> Hh2] end.
    simpl.
    match goal with |- context [collect_orders rows ?a ?d] =>
      destruct (IH a d) as [l ->]; [exact Hh2|] end.
    simpl. exists l. rewrite <- app_assoc, !drop_drop. simpl.
    do 3 f_equal.
Qed.

Lemma getUserOrdersHandler_healthy u db :
  healthy (1 + 2 * length (orders_of_user (committed db) u)) (faults db)
    = true ->
  (getUserOrdersHandler u db).1 =
    mkResponse StatusOK
      (JSONBody (map (order_with_items (committed db))
                     (orders_of_user (committed db) u))).
Proof.
  intros Hh. unfold getUserOrdersHandler, bind at 1. unfold db_Query_orders.
  destruct (call_healthy _ (SelectOrdersByUser u) db Hh) as [-> Hh1].
  simpl. unfold bind.
  match goal with |- context [collect_orders ?r ?a ?d] =>
    destruct (collect_orders_healthy r a d) as [l ->]; [exact Hh1|] end.
  done.
Qed.

Lemma getOrderDetailHandler_healthy int4in orderID db row :
  healthy 2 (faults db) = true ->
  int4in orderID = Some (row_id row) ->
  NoDup (map row_id (orders (committed db))) ->
  row ∈ orders (committed db) ->
  (getOrderDetailHandler int4in orderID db).1 =
    mkResponse StatusOK (JSONBody (order_with_items (committed db) row)).
Proof.
  intros Hh Hid Hnd Hin.
  unfold getOrderDetailHandler, bind at 1. unfold db_QueryRow_order.
  destruct (call_healthy _ (SelectOrder orderID) db Hh) as [-> Hh1].
  simpl. rewrite Hid, (filter_row_id _ _ Hnd Hin). simpl.
  unfold bind, db_Query_items.
  match goal with |- context [call ?s ?d] =>
    destruct (call_healthy _ s d Hh1) as [-> _] end.
  done.
Qed.



(** The two reads agree: on a store the service has reached and that has
    no fault to come, the order that [getDetail] shows for the id of a
    committed order is one of the orders that the listing of its user
    holds. *)
Theorem detail_agrees_with_list int4in db row orderID :
  reachable int4in db ->
  faults db = [] ->
  row ∈ orders (committed db) ->
  int4in orderID = Some (row_id row) ->
  exists o found,
    (getOrderDetailHandler int4in orderID db).1 =
      mkResponse StatusOK (JSONBody o) /\
    (getUserOrdersHandler (row_user_id row) db).1 =
      mkResponse StatusOK (JSONBody found) /\
    o ∈ found /\ ID o = row_id row.
Proof.
  intros Hreach Hf Hin Hid.
  destruct (reachable_wf _ _ Hreach) as (_ & _ & Hnd & _).
  exists (order_with_items (committed db) row). eexists.
  split; [|split; [|split]].
  - apply getOrderDetailHandler_healthy; try done.
    rewrite Hf. apply healthy_nil.
  - apply getUserOrdersHandler_healthy. rewrite Hf. apply healthy_nil.
  - apply list_elem_of_fmap. exists row. split; [done|].
    by apply orders_of_user_elem.
  - done.
Qed.

(** *** Health and startup *)

(** The health checks of the cart and of the order service answer 200
    whether their store answers the ping or not; the body says "healthy"
    exactly when it does; neither changes what is stored. *)
Theorem health_is_always_ok {Blob : Type} `{CartService.JSON Blob}
    (r : @CartService.Redis Blob) db :
  let '(cart_resp, r') := CartService.healthHandler r in
  let '(order_resp, db') := healthHandler db in
  status cart_resp = StatusOK /\ status order_resp = StatusOK /\
  (body cart_resp = JSONBody (mkHealth "healthy" "cart-service")
   <-> (pop_fault (CartService.faults r)).1 = false) /\
  (body order_resp = JSONBody (mkHealth "healthy" "order-service")
   <-> (pop_fault (faults db)).1 = false) /\
  CartService.kv r' = CartService.kv r /\ committed db' = committed db.
Proof.
  unfold healthHandler, CartService.healthHandler, bind, db_Ping,
    CartService.rdb_Ping.
  destruct (pop_fault (CartService.faults r)) as [[] fs];
    destruct (pop_fault (faults db)) as [[] fs']; simpl;
    repeat split; try done; intros [=].
Qed.

Lemma connect_loop_failures failures : forall n err slept fs,
  (length failures <= n)%nat ->
  connect_loop n err slept (flat_map round_faults failures ++ fs) =
    connect_loop (n - length failures)
      (if failures is [] then err else true)
      (slept + 3 * Z.of_nat (length failures)) fs.
Proof.
  induction failures as [|f failures IH]; intros n err slept fs Hn.
  - simpl. rewrite Nat.sub_0_r. f_equal. lia.
  - simpl in Hn. destruct n as [|n]; [lia|].
    destruct f; simpl; rewrite IH by lia;
      destruct failures; simpl; f_equal; lia.
Qed.

(** The connection loop of [main]: when the first [k < 10] rounds fail and
    the next one succeeds, the service is connected after sleeping three
    seconds per failed round; when ten rounds fail it gives up, after
    thirty seconds, with the error set. *)
Theorem connect_loop_retries failures rest :
  (length failures <= 10)%nat ->
  let fs := flat_map round_faults failures in
  ((length failures < 10)%nat ->
   connect_loop 10 false 0 (fs ++ false :: false :: rest) =
     (false, 3 * Z.of_nat (length failures), rest)) /\
  (length failures = 10%nat ->
   connect_loop 10 false 0 (fs ++ rest) = (true, 30, rest)).
Proof.
  intros Hle fs. subst fs. split.
  - intros Hlt. rewrite connect_loop_failures by lia.
    destruct (10 - length failures)%nat as [|n] eqn:Hn; [lia|]. simpl.
    f_equal.
  - intros Hten. rewrite connect_loop_failures by lia.
    rewrite Hten. simpl. by destruct failures.
Qed.

(** [createTables] leaves a table that exists as it is, rows and sequence;
    when it succeeds both tables exist, and running it again then changes
    nothing; when it fails the table of the items is as it was, and when
    its first statement fails nothing is changed and the second statement
    is not run. *)
Theorem createTables_keeps_tables d fs :
  let '(ok, d', fs') := createTables d fs in
  (forall tbl, tbl_orders d = Some tbl -> tbl_orders d' = Some tbl) /\
  (forall tbl, tbl_order_items d = Some tbl -> tbl_order_items d' = Some tbl) /\
  (ok = true ->
   is_Some (tbl_orders d') /\ is_Some (tbl_order_items d') /\
   forall fs2, healthy 2 fs2 = true ->
     createTables d' fs2 = (true, d', drop 2 fs2)) /\
  (ok = false -> tbl_order_items d' = tbl_order_items d) /\
  ((pop_fault fs).1 = true ->
   ok = false /\ d' = d /\ fs' = (pop_fault fs).2).
Proof.
  assert (forall d0 : Database,
            let d' := mkDatabase (create_if_not_exists (tbl_orders d0))
                        (create_if_not_exists (tbl_order_items d0)) in
            (forall tbl, tbl_orders d0 = Some tbl -> tbl_orders d' = Some tbl) /\
            (forall tbl, tbl_order_items d0 = Some tbl ->
                         tbl_order_items d' = Some tbl) /\
            is_Some (tbl_orders d') /\ is_Some (tbl_order_items d') /\
            forall fs2, healthy 2 fs2 = true ->
              createTables d' fs2 = (true, d', drop 2 fs2)) as Hok.
  { intros d0 d'. subst d'. simpl.
    split; [by intros tbl ->|]. split; [by intros tbl ->|].
    split; [by destruct (tbl_orders d0)|].
    split; [by destruct (tbl_order_items d0)|].
    intros fs2 Hh. unfold createTables.
    destruct (pop_healthy _ _ Hh) as [-> Hh1].
    destruct (pop_healthy _ _ Hh1) as [-> _]. rewrite drop_drop. simpl.
    by destruct (tbl_orders d0), (tbl_order_items d0). }
  unfold createTables.
  destruct (pop_fault fs) as [[] fs1] eqn:Hp1; simpl.
  { repeat split; done. }
  destruct (pop_fault fs1) as [[] fs2] eqn:Hp2; simpl.
  { split; [by intros tbl ->|]. repeat split; done. }
  destruct (Hok d) as (H1 & H2 & H3 & H4 & H5).
  split; [done|]. split; [done|]. split; [done|]. split; done.
Qed.

(** [main] on a database without tables, when the store answers the four
    calls of the startup: the handlers are registered on the store with
    both tables empty and both sequences at their first value. *)
Theorem startup_on_fresh_database c fs :
  healthy 4 fs = true ->
  startup (mkDatabase None None) c fs = Some (db_init c (drop 4 fs)).
Proof.
  intros Hh. unfold startup. simpl.
  destruct (pop_healthy _ _ Hh) as [-> Hh1].
  destruct (pop_healthy _ _ Hh1) as [-> Hh2].
  unfold createTables.
  destruct (pop_healthy _ _ Hh2) as [-> Hh3].
  destruct (pop_healthy _ _ Hh3) as [-> _].
  simpl. unfold db_init. by rewrite !drop_drop.
Qed.

(** *** Reads of what is not there, and a read that fails half way *)

(** [getDetail] of an id that the store reads and that no committed order
    has answers 404 "Order not found", when the query is answered; on a
    store the service has reached, that is so of every id that is not
    positive or that the sequence has not yet given. *)
Theorem detail_of_unused_id_not_found int4in db orderID id :
  healthy 1 (faults db) = true ->
  int4in orderID = Some id ->
  let resp := (getOrderDetailHandler int4in orderID db).1 in
  ((forall row, row ∈ orders (committed db) -> row_id row <> id) ->
   resp = error StatusNotFound "Order not found") /\
  (reachable int4in db -> id <= 0 \/ orders_id_seq db <= id ->
   resp = error StatusNotFound "Order not found").
Proof.
  intros Hh Hid resp.
  assert ((forall row, row ∈ orders (committed db) -> row_id row <> id) ->
          resp = error StatusNotFound "Order not found") as Hnone.
  { intros Hno. subst resp.
    unfold getOrderDetailHandler, bind at 1. unfold db_QueryRow_order.
    destruct (call_healthy _ (SelectOrder orderID) db Hh) as [-> _].
    simpl. rewrite Hid. by rewrite filter_none. }
  split; [done|]. intros Hreach Hout. apply Hnone. intros row Hin Heq.
  destruct (reachable_wf _ _ Hreach) as (_ & _ & _ & Hids).
  apply Hids in Hin. lia.
Qed.

(** [getDetail] of a committed order whose items query fails answers 500
    "Failed to retrieve order items": the order is not shown without its
    items. *)
Theorem detail_items_failure_is_internal int4in db orderID row rest :
  faults db = false :: true :: rest ->
  int4in orderID = Some (row_id row) ->
  row ∈ orders (committed db) ->
  (getOrderDetailHandler int4in orderID db).1 =
    error StatusInternalServerError "Failed to retrieve order items".
Proof.
  intros Hf Hid Hin.
  unfold getOrderDetailHandler, bind at 1. unfold db_QueryRow_order.
  rewrite (call_ok _ _ _ Hf). simpl. rewrite Hid.
  destruct (filter _ _) as [|row' rows'] eqn:Hfilter.
  - exfalso. eapply (filter_nil_not_elem_of _ _ row Hfilter); [|done]. done.
  - unfold bind, db_Query_items. erewrite call_fail; [|simpl; done]. done.
Qed.

(** The listing of a user who has no committed order is the empty list,
    with a 200, when the query is answered. *)
Theorem list_of_user_without_orders u db :
  healthy 1 (faults db) = true ->
  (forall row, row ∈ orders (committed db) -> row_user_id row <> u) ->
  (getUserOrdersHandler u db).1 = mkResponse StatusOK (JSONBody []).
Proof.
  intros Hh Hno.
  assert (orders_of_user (committed db) u = []) as Hrows.
  { unfold orders_of_user. by rewrite filter_none. }
  rewrite getUserOrdersHandler_healthy; rewrite Hrows; done.
Qed.

End OrderMore.

Section OrderMoreExamples.
Import OrderService.

(** A store with the order of [u1_request2], as the service commits it. *)
Lemma reachable_after_create :
  reachable ProductService.Atoi
    (createOrderHandler (Some u1_request2) 1001 (db_init 1000 [])).2.
Proof.
  apply (reach_serve ProductService.Atoi (db_init 1000 [])
           (OpCreate (Some u1_request2) 1001)).
  apply reach_init.
Defined.

(** A creation whose commit fails leaves the committed tables alone. *)
Lemma create_order_all_or_nothing_witness :
  let db := db_init 1000 [false; false; false; true] in
  committed (createOrderHandler (Some u1_request) 1001 db).2 = committed db.
Proof.
  intros db.
  pose proof (create_order_all_or_nothing (Some u1_request) 1001 db) as Hw.
  destruct (createOrderHandler (Some u1_request) 1001 db) as [resp db']
    eqn:Hrun.
  cbn [snd]. destruct Hw as [[Hcreated _]|[_ Hsame]]; [|exact Hsame].
  apply (f_equal (fun p => status p.1)) in Hrun. cbn in Hrun.
  rewrite Hcreated in Hrun. discriminate Hrun.
Defined.

(** A listing of "u1" after the order of [u1_request2] is created. *)
Lemma reads_change_nothing_witness :
  let db := (createOrderHandler (Some u1_request2) 1001 (db_init 1000 [])).2 in
  committed (getUserOrdersHandler "u1" db).2 = committed db.
Proof.
  intros db.
  destruct (reads_change_nothing ProductService.Atoi "u1" "1" db)
    as [(Hsame & _) _].
  exact Hsame.
Defined.

(** [u1_request], of one item, with the commit failing. *)
Lemma commit_failure_persists_nothing_witness :
  let db := db_init 1000 [false; false; false; true] in
  let '(resp, db') := createOrderHandler (Some u1_request) 1001 db in
  resp = error StatusInternalServerError "Failed to commit order" /\
  committed db' = mkTables [] [] /\
  orders_id_seq db' = 2.
Proof.
  intros db.
  pose proof (commit_failure_persists_nothing u1_request 1001 db []
                ltac:(discriminate) ltac:(discriminate) eq_refl eq_refl)
    as Hw.
  destruct (createOrderHandler (Some u1_request) 1001 db) as [resp db'].
  destruct Hw as (-> & -> & _ & -> & _). repeat split.
Defined.

(** Two creations with a failed one and a listing in between: ids 1
    and 3. *)
Lemma order_ids_increase_witness :
  let db := db_init 1000 [false; false; false; false;
                          false; false; true] in
  let ops := [OpCreate (Some u1_request) 1002; OpList "u1"] in
  let '(resp1, db1) := createOrderHandler (Some u1_request) 1001 db in
  let '(resp2, db2) :=
    createOrderHandler (Some u1_request2) 1003
      (serve_all ProductService.Atoi ops db1) in
  exists o1 o2,
    body resp1 = JSONBody o1 /\ body resp2 = JSONBody o2 /\
    ID o1 = 1 /\ ID o2 = 3 /\ ID o1 < ID o2.
Proof.
  intros db ops.
  pose proof (fun o1 o2 =>
                order_ids_increase ProductService.Atoi (Some u1_request) 1001
                  ops (Some u1_request2) 1003 db o1 o2) as Hw.
  destruct (createOrderHandler (Some u1_request) 1001 db) as [resp1 db1]
    eqn:Hrun1.
  destruct (createOrderHandler (Some u1_request2) 1003
              (serve_all ProductService.Atoi ops db1)) as [resp2 db2]
    eqn:Hrun2.
  vm_compute in Hrun1. injection Hrun1 as <- <-.
  vm_compute in Hrun2. injection Hrun2 as <- <-.
  eexists _, _. split; [reflexivity|]. split; [reflexivity|].
  split; [reflexivity|]. split; [reflexivity|].
  apply Hw; reflexivity.
Defined.

(** The listing of "u1" after one order. *)
Lemma listing_is_of_user_newest_first_witness :
  let db := (createOrderHandler (Some u1_request2) 1001 (db_init 1000 [])).2 in
  exists found,
    body (getUserOrdersHandler "u1" db).1 = JSONBody found /\
    (forall o, o ∈ found -> UserID o = "u1").
Proof.
  intros db. eexists. split; [reflexivity|].
  intros o Ho.
  by destruct (listing_is_of_user_newest_first "u1" db _ eq_refl)
    as [Hall _]; destruct (Hall o Ho) as [Hu _].
Defined.

Lemma reachable_tables_sound_witness :
  let db := (createOrderHandler (Some u1_request2) 1001 (db_init 1000 [])).2 in
  tables_consistent (committed db) /\ tx db = None.
Proof.
  intros db.
  destruct (reachable_tables_sound ProductService.Atoi db
              reachable_after_create) as (Hcons & _ & _ & _ & Htx).
  by split.
Defined.



(** The order of [u1_request2], by its id "1" and in the listing of
    "u1". *)
Lemma detail_agrees_with_list_witness :
  let db := (createOrderHandler (Some u1_request2) 1001 (db_init 1000 [])).2 in
  exists o found,
    (getOrderDetailHandler ProductService.Atoi "1" db).1 =
      mkResponse StatusOK (JSONBody o) /\
    (getUserOrdersHandler "u1" db).1 = mkResponse StatusOK (JSONBody found) /\
    o ∈ found /\ ID o = 1.
Proof.
  intros db.
  apply (detail_agrees_with_list ProductService.Atoi db
           (mkOrderRow 1 "u1" (ReqTotal u1_request2) "pending" 1000) "1"
           reachable_after_create eq_refl).
  - apply list_elem_of_here.
  - reflexivity.
Defined.

(** The store down on the ping of the order service, up on the one of
    the cart service. *)
Lemma health_is_always_ok_witness :
  status (healthHandler (db_init 1000 [true])).1 = StatusOK /\
  body (healthHandler (db_init 1000 [true])).1 =
    JSONBody (mkHealth "unhealthy" "order-service") /\
  body (CartService.healthHandler CartService.empty_store).1 =
    JSONBody (mkHealth "healthy" "cart-service").
Proof.
  pose proof (@health_is_always_ok _ CartService.idJSON
                CartService.empty_store (db_init 1000 [true])) as Hw.
  destruct (CartService.healthHandler CartService.empty_store)
    as [cart_resp r'] eqn:Hcart.
  destruct (healthHandler (db_init 1000 [true])) as [order_resp db']
    eqn:Horder.
  destruct Hw as (_ & Hs & Hc & _). split; [exact Hs|].
  split.
  - vm_compute in Horder. by injection Horder as <- _.
  - apply Hc. reflexivity.
Defined.

(** Three rounds that fail, the second one at [sql.Open], then one that
    succeeds: nine seconds of sleep. *)
Lemma connect_loop_retries_witness :
  connect_loop 10 false 0 [false; true; true; false; true; false; false] =
    (false, 9, []).
Proof.
  apply (connect_loop_retries [false; true; false] []); simpl; lia.
Defined.

(** A database that has the orders table, with one row, and not the one
    of the items. *)
Lemma createTables_keeps_tables_witness :
  let row := mkOrderRow 1 "u1" (ReqTotal u1_request) "pending" 1000 in
  let d := mkDatabase (Some ([row], 2)) None in
  let '(ok, d', fs') := createTables d [] in
  tbl_orders d' = Some ([row], 2).
Proof.
  intros row d.
  pose proof (createTables_keeps_tables d []) as Hw.
  destruct (createTables d []) as [[ok d'] fs'].
  destruct Hw as (Horders & _). exact (Horders _ eq_refl).
Defined.

Lemma startup_on_fresh_database_witness :
  startup (mkDatabase None None) 1000 [] = Some (db_init 1000 []).
Proof. apply (startup_on_fresh_database 1000 []). reflexivity. Defined.

(** The scenario of the specification: the id "999999" on a store with
    one order. *)
Lemma detail_of_unused_id_not_found_witness :
  let db := (createOrderHandler (Some u1_request2) 1001 (db_init 1000 [])).2 in
  (getOrderDetailHandler ProductService.Atoi "999999" db).1 =
    error StatusNotFound "Order not found".
Proof.
  intros db.
  apply (detail_of_unused_id_not_found ProductService.Atoi db "999999" 999999
           eq_refl eq_refl).
  - exact reachable_after_create.
  - right. vm_compute. discriminate.
Defined.

(** The order of [u1_request2] when the query of its items fails. *)
Lemma detail_items_failure_is_internal_witness :
  let db := (createOrderHandler (Some u1_request2) 1001
               (db_init 1000 [false; false; false; false; false;
                              false; true])).2 in
  (getOrderDetailHandler ProductService.Atoi "1" db).1 =
    error StatusInternalServerError "Failed to retrieve order items".
Proof.
  intros db.
  apply (detail_items_failure_is_internal ProductService.Atoi db "1"
           (mkOrderRow 1 "u1" (ReqTotal u1_request2) "pending" 1000) []
           eq_refl eq_refl).
  apply list_elem_of_here.
Defined.

(** The listing of "u2" on a store that has an order of "u1" only. *)
Lemma list_of_user_without_orders_witness :
  let db := (createOrderHandler (Some u1_request2) 1001 (db_init 1000 [])).2 in
  (getUserOrdersHandler "u2" db).1 = mkResponse StatusOK (JSONBody []).
Proof.
  intros db. apply (list_of_user_without_orders "u2" db eq_refl).
  intros row Hin. apply list_elem_of_singleton in Hin as ->. discriminate.
Defined.

End OrderMoreExamples.

(** ** Product service *)

Section ProductMore.
Import ProductService.

(** The two reads of the catalog agree: [getByID] answers with a product
    exactly when that product is in the list that [list] answers with and
    the id asked for is read by [strconv.Atoi] as the id of the product,
    however it is spelled; the answer is then a 200. *)
Theorem lookup_agrees_with_list (idVar : string) (p : Product) :
  exists all,
    body getProductsHandler = JSONBody all /\
    (body (getProductByIDHandler idVar) = JSONBody p
     <-> p ∈ all /\ Atoi idVar = Some (ID p)) /\
    (body (getProductByIDHandler idVar) = JSONBody p ->
     status (getProductByIDHandler idVar) = StatusOK).
Proof.
  exists products. split; [done|]. unfold getProductByIDHandler.
  destruct (Atoi idVar) as [id|]; [|by split; [split; [|intros [_ ?]]|]].
  destruct (find_product products id) as [q|] eqn:Hf.
  - apply find_product_Some in Hf as [Hq Hid]. split; [|done]. split.
    + intros [= <-]. split; [done|]. by rewrite Hid.
    + intros [Hp [= Hpid]]. simpl. do 2 f_equal.
      apply products_ids_distinct; congruence.
  - pose proof (find_product_None _ _ Hf) as Hno. split; [|done]. split.
    + done.
    + intros [Hp [= Hpid]]. by destruct (Hno p Hp).
Qed.

End ProductMore.

Section ProductMoreExamples.
Import ProductService.

(** The mouse, by the ids "2", "+2" and "002". *)
Lemma lookup_agrees_with_list_witness :
  let mouse := mkProduct 2 "Mouse" "Wireless mouse"
                 (f64 8441434551552573 (-48)) 50 in
  body (getProductByIDHandler "2") = JSONBody mouse /\
  body (getProductByIDHandler "+2") = JSONBody mouse /\
  body (getProductByIDHandler "002") = JSONBody mouse.
Proof.
  intros mouse.
  assert (mouse ∈ products) as Hin.
  { unfold products. rewrite !elem_of_cons. tauto. }
  assert (forall idVar, Atoi idVar = Some 2 ->
            body (getProductByIDHandler idVar) = JSONBody mouse) as Hw.
  { intros idVar Hid.
    destruct (lookup_agrees_with_list idVar mouse) as (all & [= <-] & Hiff & _).
    apply Hiff. by split. }
  repeat split; by apply Hw.
Defined.

End ProductMoreExamples.
